(** * A shallow embedding of the chat frontend [rag-llm-frontend/app.py]

    The frontend talks to an OpenAI-compatible backend.  Three functions carry
    its behaviour: [fetch_models] (model discovery), [stream_chat] (a Python
    generator that POSTs a streaming chat completion and yields tokens) and
    [respond] (the UI callback, itself a generator, that drives [stream_chat]
    and mutates the conversation list in place).

    Python values are embedded as follows.
    - [str] is a list of Unicode code points ([list N]).
    - Immutable values (the results of [json.loads], dictionary contents) are
      the inductive type [pyval].
    - The two kinds of mutable objects the code shares between its two
      generators, lists of messages and message dictionaries, live in a heap
      indexed by locations, so that aliasing is explicit.
    - Exceptions are a sum type; fallible operations return [result].
    - A generator is a finite resumption [gen]: what it does each time it is
      resumed.  The body of a generator function runs at the first
      [next()], not at the call; this is kept by [stream_chat] taking the heap
      only when it is started. *)

From Stdlib Require Import ZArith NArith List String Ascii Bool Lia DecimalString.
From stdpp Require Import base option list gmap.

Local Open Scope N_scope.

(** ** Strings *)

Abbreviation pystr := (list N).

(** An ASCII literal as a Python string. *)
Definition lit (s : string) : pystr :=
  map N_of_ascii (list_ascii_of_string s).

(** A literal in which every apostrophe stands for a double quote, to write
    JSON text. *)
Definition jlit (s : string) : pystr :=
  map (fun c => if c =? 39 then 34 else c) (lit s).

(** [s.startswith(p)] *)
Fixpoint startswith (s p : pystr) : bool :=
  match p, s with
  | [], _ => true
  | _ :: _, [] => false
  | a :: p', b :: s' => (a =? b) && startswith s' p'
  end.

(** [str.isspace] on one code point: the white-space table of CPython's
    Unicode database. *)
Definition isspace (c : N) : bool :=
  ((9 <=? c) && (c <=? 13)) || ((28 <=? c) && (c <=? 32))
  || (c =? 133) || (c =? 160) || (c =? 5760)
  || ((8192 <=? c) && (c <=? 8202))
  || (c =? 8232) || (c =? 8233) || (c =? 8239) || (c =? 8287) || (c =? 12288).

Fixpoint lstrip (s : pystr) : pystr :=
  match s with
  | c :: r => if isspace c then lstrip r else s
  | [] => []
  end.

(** [s.strip()] *)
Definition strip (s : pystr) : pystr := rev (lstrip (rev (lstrip s))).

Definition str_eqb (s t : pystr) : bool := bool_decide (s = t).

(** [p in s] for two strings: [p] occurs as a substring of [s]. *)
Fixpoint str_contains (s p : pystr) : bool :=
  startswith s p || match s with [] => false | _ :: r => str_contains r p end.

(** [str(n)] for an integer. *)
Definition str_of_Z (z : Z) : pystr :=
  lit (DecimalString.NilZero.string_of_int (Z.to_int z)).

(** ** Immutable values *)

(** A float read from a decimal literal [±m·10^e] is the double nearest to
    that number; the program only ever tests floats for truth. *)
Inductive pyfloat :=
| FDec (neg : bool) (m : N) (e : Z)
| FInf (neg : bool)
| FNaN.

#[warnings="-register-all"]
Inductive pyval :=
| PNone
| PBool (b : bool)
| PInt (z : Z)
| PFloat (f : pyfloat)
| PStr (s : pystr)
| PList (xs : list pyval)
| PDict (kvs : list (pystr * pyval)).

(** A dictionary keeps insertion order; keys are unique. *)
Abbreviation dictv := (list (pystr * pyval)).

Fixpoint dict_get (d : dictv) (k : pystr) : option pyval :=
  match d with
  | [] => None
  | (k', v) :: r => if str_eqb k' k then Some v else dict_get r k
  end.

(** [d[k] = v] *)
Fixpoint dict_set (d : dictv) (k : pystr) (v : pyval) : dictv :=
  match d with
  | [] => [(k, v)]
  | (k', v') :: r =>
      if str_eqb k' k then (k', v) :: r else (k', v') :: dict_set r k v
  end.

(** The decimal [m·10^e] rounds (to nearest, ties to even) to a non-zero
    double exactly when it exceeds [2^-1075]. *)
Definition float_nonzero (f : pyfloat) : bool :=
  match f with
  | FDec _ m e =>
      negb (m =? 0) &&
      ((0 <=? e)%Z || (10 ^ Z.to_N (- e) <? m * 2 ^ 1075))
  | FInf _ | FNaN => true
  end.

(** [bool(v)] *)
Definition truthy (v : pyval) : bool :=
  match v with
  | PNone => false
  | PBool b => b
  | PInt z => negb (z =? 0)%Z
  | PFloat f => float_nonzero f
  | PStr s => negb (str_eqb s [])
  | PList xs => match xs with [] => false | _ => true end
  | PDict kvs => match kvs with [] => false | _ => true end
  end.

(** ** Exceptions *)

(** The subclasses of [Exception] that the program can meet. *)
Inductive exn :=
| JSONDecodeError
| IndexError
| KeyError
| AttributeError
| TypeError
| ValueError
| RecursionError
| HTTPStatusError (status : Z) (body : option (list N))
| ResponseNotRead
| TransportError.

Inductive result (A : Type) :=
| Ok (a : A)
| Raise (e : exn).
Arguments Ok {A} a.
Arguments Raise {A} e.

(** [result] is a monad: the first exception raised ends the computation. *)
#[global] Instance result_ret : MRet result := @Ok.
#[global] Instance result_bind : MBind result := fun A B k r =>
  match r with
  | Ok a => k a
  | Raise e => Raise e
  end.

(** ** A reference decoder for [json.loads] *)

Module Json.

Definition is_ws (c : N) : bool :=
  (c =? 32) || (c =? 9) || (c =? 10) || (c =? 13).

Fixpoint skip_ws (s : pystr) : pystr :=
  match s with
  | c :: r => if is_ws c then skip_ws r else s
  | [] => []
  end.

Definition is_digit (c : N) : bool := (48 <=? c) && (c <=? 57).

Definition hexval (c : N) : option N :=
  if is_digit c then Some (c - 48)
  else if (97 <=? c) && (c <=? 102) then Some (c - 87)
  else if (65 <=? c) && (c <=? 70) then Some (c - 55)
  else None.

Definition hex4 (a b c d : N) : option N :=
  match hexval a, hexval b, hexval c, hexval d with
  | Some x, Some y, Some z, Some w => Some (((x * 16 + y) * 16 + z) * 16 + w)
  | _, _, _, _ => None
  end.

Definition simple_escape (c : N) : option N :=
  if c =? 34 then Some 34         (* quote *)
  else if c =? 92 then Some 92    (* backslash *)
  else if c =? 47 then Some 47    (* slash *)
  else if c =? 98 then Some 8     (* b *)
  else if c =? 102 then Some 12   (* f *)
  else if c =? 110 then Some 10   (* n *)
  else if c =? 114 then Some 13   (* r *)
  else if c =? 116 then Some 9    (* t *)
  else None.

Definition is_high (c : N) : bool := (55296 <=? c) && (c <=? 56319).
Definition is_low (c : N) : bool := (56320 <=? c) && (c <=? 57343).

(** The body of a string, after its opening quote; [acc] holds the decoded
    code points in reverse. *)
Fixpoint scanstring (s : pystr) (acc : pystr) : option (pystr * pystr) :=
  match s with
  | [] => None
  | c :: r =>
      if c =? 34 then Some (rev acc, r)
      else if c =? 92 then
        match r with
        | [] => None
        | e :: r1 =>
            if e =? 117 then
              match r1 with
              | h1 :: h2 :: h3 :: h4 :: r2 =>
                  match hex4 h1 h2 h3 h4 with
                  | None => None
                  | Some hi =>
                      match r2 with
                      | 92 :: 117 :: g1 :: g2 :: g3 :: g4 :: r3 =>
                          match hex4 g1 g2 g3 g4 with
                          | None => None
                          | Some lo =>
                              if is_high hi && is_low lo
                              then scanstring r3
                                     (65536 + (hi - 55296) * 1024 + (lo - 56320)
                                      :: acc)
                              else scanstring r2 (hi :: acc)
                          end
                      | _ => scanstring r2 (hi :: acc)
                      end
                  end
              | _ => None
              end
            else
              match simple_escape e with
              | Some x => scanstring r1 (x :: acc)
              | None => None
              end
        end
      else if c <? 32 then None
      else scanstring r (c :: acc)
  end.

Fixpoint span_digits (s : pystr) (acc : pystr) : pystr * pystr :=
  match s with
  | c :: r => if is_digit c then span_digits r (c :: acc) else (rev acc, s)
  | [] => (rev acc, [])
  end.

Definition digits_value (ds : pystr) : N :=
  fold_left (fun a c => a * 10 + (c - 48)) ds 0.

(** The integer part: [0] or a non-empty run of digits not starting with 0. *)
Definition scan_int (s : pystr) : option (pystr * pystr) :=
  match s with
  | c :: r =>
      if c =? 48 then Some ([48], r)
      else if is_digit c then Some (span_digits s [])
      else None
  | [] => None
  end.

Definition scan_frac (s : pystr) : pystr * pystr :=
  match s with
  | 46 :: ((d :: _) as r) =>
      if is_digit d then span_digits r [] else ([], s)
  | _ => ([], s)
  end.

(** The exponent: sign, digits and rest, when there is one. *)
Definition scan_exp (s : pystr) : option (bool * pystr * pystr) :=
  match s with
  | c :: r =>
      if (c =? 101) || (c =? 69) then
        let '(sg, r1) :=
          match r with
          | 43 :: r' => (false, r')
          | 45 :: r' => (true, r')
          | _ => (false, r)
          end in
        match span_digits r1 [] with
        | ([], _) => None
        | (ds, r2) => Some (sg, ds, r2)
        end
      else None
  | [] => None
  end.

(** Why the decoder gives up: the text is not JSON, an integer literal has
    more digits than [int] converts, or the nesting is deeper than the
    interpreter lets the scanner recurse. *)
Inductive failure := Malformed | TooManyDigits | TooDeep.

Inductive parse (A : Type) :=
| Parsed (a : A)
| Failed (f : failure).
Arguments Parsed {A} a.
Arguments Failed {A} f.

(** [sys.get_int_max_str_digits()], by default. *)
Definition int_max_str_digits : nat := 4300.

(** The nesting that [json.loads] accepts when called from the top level of
    a module under the default [sys.getrecursionlimit()] of 1000: each
    array or object in another takes one level, and the frames of the
    decoder take the rest.  A call from inside [n] nested Python calls has
    [n] levels less. *)
Definition recursion_room : nat := 995.

Definition scan_number (s : pystr) : parse (pyval * pystr) :=
  let '(neg, s1) := match s with 45 :: r => (true, r) | _ => (false, s) end in
  match scan_int s1 with
  | None => Failed Malformed
  | Some (ip, s2) =>
      let '(fp, s3) := scan_frac s2 in
      match scan_exp s3, fp with
      | None, [] =>
          if (int_max_str_digits <? length ip)%nat then Failed TooManyDigits
          else
            let n := Z.of_N (digits_value ip) in
            Parsed (PInt (if neg then - n else n)%Z, s3)
      | None, _ :: _ =>
          Parsed (PFloat (FDec neg (digits_value (ip ++ fp))
                            (- Z.of_nat (length fp))), s3)
      | Some (sg, ds, s4), _ =>
          let x := Z.of_N (digits_value ds) in
          Parsed (PFloat (FDec neg (digits_value (ip ++ fp))
                            ((if sg then - x else x) - Z.of_nat (length fp))),
                  s4)
      end
  end.

(** [fuel] bounds the calls (each consumes a character); [room] is the
    nesting still allowed. *)
Fixpoint scan_once (fuel room : nat) (s : pystr) : parse (pyval * pystr) :=
  match fuel with
  | O => Failed Malformed
  | S f =>
      match s with
      | [] => Failed Malformed
      | c :: r =>
          if c =? 34 then
            match scanstring r [] with
            | Some (str, r') => Parsed (PStr str, r')
            | None => Failed Malformed
            end
          else if c =? 123 then
            match room with
            | O => Failed TooDeep
            | S room' =>
                match skip_ws r with
                | 125 :: r' => Parsed (PDict [], r')
                | r1 => scan_members f room' r1 []
                end
            end
          else if c =? 91 then
            match room with
            | O => Failed TooDeep
            | S room' =>
                match skip_ws r with
                | 93 :: r' => Parsed (PList [], r')
                | r1 => scan_elems f room' r1 []
                end
            end
          else if startswith s (lit "null") then Parsed (PNone, drop 4 s)
          else if startswith s (lit "true") then Parsed (PBool true, drop 4 s)
          else if startswith s (lit "false")
               then Parsed (PBool false, drop 5 s)
          else if startswith s (lit "NaN") then Parsed (PFloat FNaN, drop 3 s)
          else if startswith s (lit "Infinity")
               then Parsed (PFloat (FInf false), drop 8 s)
          else if startswith s (lit "-Infinity")
               then Parsed (PFloat (FInf true), drop 9 s)
          else scan_number s
      end
  end

with scan_elems (fuel room : nat) (s : pystr) (acc : list pyval)
  : parse (pyval * pystr) :=
  match fuel with
  | O => Failed Malformed
  | S f =>
      match scan_once f room s with
      | Failed e => Failed e
      | Parsed (v, r) =>
          match skip_ws r with
          | 44 :: r1 => scan_elems f room (skip_ws r1) (v :: acc)
          | 93 :: r1 => Parsed (PList (rev (v :: acc)), r1)
          | _ => Failed Malformed
          end
      end
  end

with scan_members (fuel room : nat) (s : pystr) (acc : dictv)
  : parse (pyval * pystr) :=
  match fuel with
  | O => Failed Malformed
  | S f =>
      match s with
      | 34 :: r =>
          match scanstring r [] with
          | None => Failed Malformed
          | Some (key, r1) =>
              match skip_ws r1 with
              | 58 :: r2 =>
                  match scan_once f room (skip_ws r2) with
                  | Failed e => Failed e
                  | Parsed (v, r3) =>
                      let acc' := dict_set acc key v in
                      match skip_ws r3 with
                      | 44 :: r4 => scan_members f room (skip_ws r4) acc'
                      | 125 :: r4 => Parsed (PDict acc', r4)
                      | _ => Failed Malformed
                      end
                  end
              | _ => Failed Malformed
              end
          end
      | _ => Failed Malformed
      end
  end.

(** The exception each failure is raised as. *)
Definition raised (f : failure) : exn :=
  match f with
  | Malformed => JSONDecodeError
  | TooManyDigits => ValueError
  | TooDeep => RecursionError
  end.

(** The decoding of a text, after the test for a byte-order mark.  Each
    nested call consumes a character, so the length of the text is enough
    fuel. *)
Definition decode (s : pystr) : result pyval :=
  match scan_once (S (length s)) recursion_room (skip_ws s) with
  | Parsed (v, r) =>
      match skip_ws r with
      | [] => Ok v
      | _ :: _ => Raise JSONDecodeError
      end
  | Failed f => Raise (raised f)
  end.

(** [json.loads(s)] for a [str]: a leading byte-order mark is refused. *)
Definition loads (s : pystr) : result pyval :=
  match s with
  | 65279 :: _ => Raise JSONDecodeError
  | _ => decode s
  end.

(** [json.loads(b)] for the bytes of a response body, held here as their
    text: the decoding of the bytes ([utf-8-sig] when they start with the
    UTF-8 signature) drops one leading byte-order mark. *)
Definition drop_signature (s : pystr) : pystr :=
  match s with
  | 65279 :: r => r
  | _ => s
  end.

End Json.

Arguments Json.drop_signature : simpl never.


(** ** Operations on values *)

(** [v.get(k, default)]: only dictionaries have the method. *)
Definition py_get (v : pyval) (k : pystr) (default : pyval) : result pyval :=
  match v with
  | PDict d => Ok (match dict_get d k with Some x => x | None => default end)
  | _ => Raise AttributeError
  end.

(** [v[0]].  The keys of a decoded object are strings, so the integer key 0
    is never present in a dictionary. *)
Definition py_item0 (v : pyval) : result pyval :=
  match v with
  | PList (x :: _) => Ok x
  | PList [] => Raise IndexError
  | PStr (c :: _) => Ok (PStr [c])
  | PStr [] => Raise IndexError
  | PDict _ => Raise KeyError
  | _ => Raise TypeError
  end.

(** The items that [for x in v] visits. *)
Definition py_iter (v : pyval) : result (list pyval) :=
  match v with
  | PList xs => Ok xs
  | PDict d => Ok (map (fun kv => PStr (fst kv)) d)
  | PStr s => Ok (map (fun c => PStr [c]) s)
  | _ => Raise TypeError
  end.

Definition is_str (k : pystr) (v : pyval) : bool :=
  match v with
  | PStr s => str_eqb s k
  | _ => false
  end.

(** [k in v] for a string [k]. *)
Definition py_contains (v : pyval) (k : pystr) : result bool :=
  match v with
  | PDict d => Ok (match dict_get d k with Some _ => true | None => false end)
  | PList xs => Ok (existsb (is_str k) xs)
  | PStr s => Ok (str_contains s k)
  | _ => Raise TypeError
  end.

(** [v[k]] for a string [k]. *)
Definition py_getitem (v : pyval) (k : pystr) : result pyval :=
  match v with
  | PDict d => match dict_get d k with Some x => Ok x | None => Raise KeyError end
  | _ => Raise TypeError
  end.

(** [bool(model_choice)] for an optional string. *)
Definition truthy_opt (m : option pystr) : bool :=
  match m with
  | None => false
  | Some s => truthy (PStr s)
  end.

(** ** The heap of mutable objects *)

Abbreviation loc := positive.

Inductive obj :=
| OList (items : list loc)
| ODict (fields : dictv).

Abbreviation heap := (gmap loc obj).

Definition alloc (h : heap) (o : obj) : loc * heap :=
  let l := fresh (dom h) in (l, <[l := o]> h).

(** [l.append(x)] *)
Definition list_append (h : heap) (l x : loc) : result heap :=
  match h !! l with
  | Some (OList xs) => Ok (<[l := OList (xs ++ [x])]> h)
  | _ => Raise AttributeError
  end.

(** [l + ys], a new list holding the same objects. *)
Definition list_add (h : heap) (l : loc) (ys : list loc) : result (loc * heap) :=
  match h !! l with
  | Some (OList xs) => Ok (alloc h (OList (xs ++ ys)))
  | _ => Raise TypeError
  end.

(** [l[-1][k] = v] *)
Definition set_last_item (h : heap) (l : loc) (k : pystr) (v : pyval)
  : result heap :=
  match h !! l with
  | Some (OList xs) =>
      match last xs with
      | None => Raise IndexError
      | Some d =>
          match h !! d with
          | Some (ODict fs) => Ok (<[d := ODict (dict_set fs k v)]> h)
          | _ => Raise TypeError
          end
      end
  | _ => Raise TypeError
  end.

Definition read_dict (h : heap) (d : loc) : option dictv :=
  match h !! d with
  | Some (ODict fs) => Some fs
  | _ => None
  end.

(** The conversation a list object denotes at a given moment: what a reader
    of the object (the JSON encoder, the UI) sees. *)
Definition read_list (h : heap) (l : loc) : option (list dictv) :=
  match h !! l with
  | Some (OList xs) => mapM (read_dict h) xs
  | _ => None
  end.

(** A message of the conversation: the dictionary with the keys [role] and
    [content], in that order. *)
Definition Message (role content : pystr) : dictv :=
  [(lit "role", PStr role); (lit "content", PStr content)].

(** ** The network *)

(** How the body of a streamed response ends: the server closes it, or the
    connection fails while [iter_lines] waits for more. *)
Inductive stream_end := Closed | Dropped.

(** The JSON body of a chat-completion request. *)
Record payload := {
  p_model : pystr;
  p_messages : list dictv;
  p_stream : bool
}.

(** The backend as the program sees it.  Each call either fails with the
    exception the HTTP client raises, or gives a status and a body. *)
Record world := {
  serve_get : pystr -> result (Z * pystr);
  serve_post : pystr -> payload -> result (Z * list pystr * stream_end)
}.

(** An [httpx.Response].  [content] is the body once it has been read:
    [httpx.get] reads it before returning, while [httpx.stream] returns the
    response with its body still on the wire, to be consumed by
    [iter_lines]. *)
Record response := {
  status_code : Z;
  content : option pystr;
  body_lines : list pystr;
  ending : stream_end
}.

(** The text of a log entry: a string, or a string followed by the text of
    an exception ([f"...{e}"]), which is whatever the library or the
    interpreter that raised it gave it. *)
Inductive logtext :=
| LogText (s : pystr)
| LogTextExn (s : pystr) (e : exn).

(** What the program does that can be observed from outside.  A log entry
    made with [exc_info=True] carries the exception being handled. *)
Inductive event :=
| EvGet (url : pystr)
| EvPost (url : pystr) (body : payload)
| EvLogError (msg : logtext) (exc_info : option exn).

(** ** Generators *)

(** A started generator: the effects and items it produces as it is resumed,
    until it returns or an exception leaves it. *)
Inductive gen :=
| Yield (item : pyval) (k : gen)
| Emit (e : event) (k : gen)
| Return
| Throw (e : exn).

(** The items a generator hands to a consumer that drives it to the end. *)
Fixpoint items (g : gen) : list pyval :=
  match g with
  | Yield x k => x :: items k
  | Emit _ k => items k
  | Return | Throw _ => []
  end.

Fixpoint effects (g : gen) : list event :=
  match g with
  | Yield _ k => effects k
  | Emit e k => e :: effects k
  | Return | Throw _ => []
  end.

(** How the generator ends: [Ok ()] for a plain return, or the exception that
    reaches the consumer. *)
Fixpoint outcome (g : gen) : result unit :=
  match g with
  | Yield _ k | Emit _ k => outcome k
  | Return => Ok ()
  | Throw e => Raise e
  end.

(** What [respond], driven by the UI, lets the outside observe, in order:
    the effects of the stream it consumes, and the pairs it yields.  The
    conversation it yields is always the list object it was given; [shown] is
    what that object holds at the moment of the yield. *)
Inductive obs :=
| Effect (e : event)
| Update (ref : loc) (shown : option (list dictv)) (input : pystr).

(** The result of driving [respond] to its end: what was observed, the final
    heap, and whether an exception left the generator. *)
Abbreviation run := (list obs * heap * result unit)%type.

(** The conversations handed to the UI, in order. *)
Definition yields (t : list obs) : list (option (list dictv)) :=
  omap (fun o => match o with Update _ c _ => Some c | _ => None end) t.

(** The bodies of the chat-completion requests sent, in order. *)
Definition posts (t : list obs) : list payload :=
  omap (fun o => match o with Effect (EvPost _ p) => Some p | _ => None end) t.

(** ** The program *)

Definition warning_sign : pystr := [9888; 65039].

Definition select_model_warning : pystr :=
  warning_sign ++
  lit " **Error:** Please select a model from the dropdown menu first.".

Definition http_error_text (status : Z) : pystr :=
  lit "HTTP error occurred: " ++ str_of_Z status.

Definition http_error_message (status : Z) : pystr :=
  warning_sign ++ lit " **Error:** " ++ http_error_text status ++
  lit ". Please check the logs for details.".

Definition unexpected_error_message : pystr :=
  warning_sign ++
  lit " **Error:** An unexpected error occurred. Please check the logs.".

(** The bodies of the chat-completion requests among some effects. *)
Definition requests (es : list event) : list payload :=
  omap (fun e => match e with EvPost _ p => Some p | _ => None end) es.

(** The effects among what was observed, in order. *)
Definition trace_effects (t : list obs) : list event :=
  omap (fun o => match o with Effect e => Some e | _ => None end) t.

(** The text items at the head of a sequence of items, up to the first item
    that is not text. *)
Fixpoint text_prefix (xs : list pyval) : list pystr :=
  match xs with
  | PStr s :: r => s :: text_prefix r
  | _ => []
  end.

(** The keyword arguments of [gr.update] for the model dropdown. *)
Record dropdown_update := {
  upd_choices : list pyval;
  upd_value : pyval;
  upd_interactive : bool
}.

Definition backend_unreachable : pystr :=
  warning_sign ++ lit " backend unreachable".

(** ** Sample backends *)

(** The endpoints under the default base URL. *)
Definition chat_url : pystr :=
  lit "http://localhost:8080/openai/v1/chat/completions".

Definition models_url : pystr :=
  lit "http://localhost:8080/openai/v1/models".

(** An event stream of two tokens and the sentinel. *)
Definition hello_stream : list pystr :=
  [ jlit "data: {'choices':[{'delta':{'content':'Hel'}}]}";
    jlit "data: {'choices':[{'delta':{'content':'lo'}}]}";
    lit "data: [DONE]" ].

(** The same stream with a further token line after the sentinel. *)
Definition late_stream : list pystr :=
  hello_stream ++ [ jlit "data: {'choices':[{'delta':{'content':'!'}}]}" ].


(** The same two tokens, around a data line whose payload is [null]. *)
Definition null_stream : list pystr :=
  [ jlit "data: {'choices':[{'delta':{'content':'Hel'}}]}";
    lit "data: null";
    jlit "data: {'choices':[{'delta':{'content':'lo'}}]}" ].

(** A model listing of three objects, the second without identifier. *)
Definition listing_body : pystr :=
  jlit "{'object':'list','data':[{'id':'model-a'},{'object':'model'},{'id':'model-b'}]}".

(** An event stream as servers send it: a comment, the chunk that opens the
    message with an empty content, blank lines, a data line without the
    space after the colon, and a sentinel with spaces around it. *)
Definition padded_stream : list pystr :=
  [ lit ": keep-alive";
    jlit "data: {'choices':[{'delta':{'role':'assistant','content':''}}]}";
    [];
    jlit "data: {'choices':[{'delta':{'content':'Hel'}}]}";
    jlit "data:{'choices':[{'delta':{'content':'XX'}}]}";
    jlit "data: {'choices':[{'delta':{'content':'lo'}}]}";
    lit "data:   [DONE]  ";
    jlit "data: {'choices':[{'delta':{'content':'!'}}]}" ].

(** A stream whose second token is a number. *)
Definition number_stream : list pystr :=
  [ jlit "data: {'choices':[{'delta':{'content':'Hel'}}]}";
    jlit "data: {'choices':[{'delta':{'content':5}}]}";
    jlit "data: {'choices':[{'delta':{'content':'lo'}}]}" ].

(** A model listing with no model in it, and one whose second entry is not
    an object. *)
Definition empty_listing_body : pystr := jlit "{'object':'list','data':[]}".

Definition bad_entry_body : pystr :=
  jlit "{'data':[{'id':'model-a'},null,{'id':'model-b'}]}".

(** A listing whose entries are a string, [null] and a model object. *)
Definition mixed_entry_body : pystr :=
  jlit "{'data':['x',null,{'id':'model-b'}]}".

(** A conversation object that is still empty. *)
Definition empty_chat : heap := {[ 1%positive := OList [] ]}.

(** A conversation object that holds one earlier exchange. *)
Definition chat_with_history : heap :=
  {[ 1%positive := OList [2%positive; 3%positive];
     2%positive := ODict (Message (lit "user") (lit "Hi"));
     3%positive := ODict (Message (lit "assistant") (lit "Hello")) ]}.

(** A backend that answers every completion request the same way. *)
Definition chat_backend (status : Z) (lines : list pystr) (e : stream_end)
  : world :=
  {| serve_get := fun _ => Raise TransportError;
     serve_post := fun _ _ => Ok (status, lines, e) |}.

(** A backend with a fixed answer to the model listing. *)
Definition models_backend (answer : result (Z * pystr)) : world :=
  {| serve_get := fun _ => answer;
     serve_post := fun _ _ => Raise TransportError |}.

(** [Response.is_success] *)
Definition is_success (status : Z) : bool :=
  ((200 <=? status) && (status <=? 299))%Z.

Section Frontend.

(** [json.loads], the string forms of the two endpoint URLs (built from the
    environment when the module is loaded) and the backend. *)
Variable json_loads : pystr -> result pyval.
Variable LLM_MODELS_ENDPOINT : pystr.
Variable LLM_CHAT_COMPLETIONS_ENDPOINT : pystr.
Variable net : world.

(** [httpx.get(url, timeout=10)] *)
Definition httpx_get (url : pystr) : result response :=
  '(status, body) ← serve_get net url;
  Ok {| status_code := status; content := Some body;
        body_lines := []; ending := Closed |}.

(** [httpx.stream("POST", url, json=body, timeout=None)] *)
Definition httpx_stream (url : pystr) (body : payload) : result response :=
  '(status, ls, e) ← serve_post net url body;
  Ok {| status_code := status; content := None;
        body_lines := ls; ending := e |}.

(** [r.raise_for_status()]: every status outside 2xx raises; the exception
    carries the response. *)
Definition raise_for_status (r : response) : result unit :=
  if is_success (status_code r) then Ok ()
  else Raise (HTTPStatusError (status_code r) (content r)).

(** [r.text].  The body of a response is available only once it was read;
    on a streamed response that was not read, the attribute raises
    [httpx.ResponseNotRead]. *)
Definition response_text (body : option pystr) : result pystr :=
  match body with
  | Some t => Ok t
  | None => Raise ResponseNotRead
  end.

(** *** [fetch_models] *)

(** [[model["id"] for model in models if "id" in model]] *)
Fixpoint collect_ids (models : list pyval) : result (list pyval) :=
  match models with
  | [] => Ok []
  | model :: rest =>
      has ← py_contains model (lit "id");
      if (has : bool) then
        id ← py_getitem model (lit "id");
        ids ← collect_ids rest;
        Ok (id :: ids)
      else collect_ids rest
  end.

(** The guarded part of [fetch_models]: the request, the status check and
    the decoding of the body.  [r.json()] decodes the bytes of the body,
    which drops a byte-order mark at their start, and then reads the text as
    [json.loads] does. *)
Definition fetch_models_request : result pyval :=
  r ← httpx_get LLM_MODELS_ENDPOINT;
  _ ← raise_for_status r;
  body ← response_text (content r);
  json_loads (Json.drop_signature body).

Definition fetch_models_log (x : exn) : event :=
  EvLogError (LogText (lit "Failed to fetch models from " ++
                       LLM_MODELS_ENDPOINT))
    (Some x).

(** [fetch_models()]: the events, and the pair returned or the exception
    raised. *)
Definition fetch_models : list event * result (list pyval * pyval) :=
  match fetch_models_request with
  | Raise x =>
      ([EvGet LLM_MODELS_ENDPOINT; fetch_models_log x], Ok ([], PNone))
  | Ok data =>
      ([EvGet LLM_MODELS_ENDPOINT],
       listing ← py_get data (lit "data") (PList []);
       models ← py_iter listing;
       choices ← collect_ids models;
       let default := match choices with x :: _ => x | [] => PNone end in
       Ok (choices, default))
  end.

(** *** [stream_chat] *)

(** The [try] body of the line loop, up to the test of the token. *)
Definition read_token (data_str : pystr) : result pyval :=
  chunk ← json_loads data_str;
  choices ← py_get chunk (lit "choices") (PList [PDict []]);
  first ← py_item0 choices;
  delta ← py_get first (lit "delta") (PDict []);
  py_get delta (lit "content") PNone.

(** [except (json.JSONDecodeError, IndexError, KeyError): continue] *)
Definition skipped (e : exn) : bool :=
  match e with
  | JSONDecodeError | IndexError | KeyError => true
  | _ => false
  end.

(** The two handlers of the outer [try].  An exception raised inside a
    handler is not seen by the handler after it. *)
Definition on_exception (e : exn) : gen :=
  match e with
  | HTTPStatusError status body =>
      let error_text := http_error_text status in
      match response_text body with
      | Raise e' => Throw e'
      | Ok text =>
          Emit (EvLogError (LogText (error_text ++ lit " - " ++ text)) None)
            (Yield (PStr (http_error_message status)) Return)
      end
  | _ =>
      Emit (EvLogError
              (LogTextExn
                 (lit "An unexpected error occurred during streaming: ") e)
              (Some e))
        (Yield (PStr unexpected_error_message) Return)
  end.

(** [for raw_chunk in r.iter_lines(): ...] *)
Fixpoint iter_lines (lines : list pystr) (e : stream_end) : gen :=
  match lines with
  | [] =>
      match e with
      | Closed => Return
      | Dropped => on_exception TransportError
      end
  | raw_chunk :: rest =>
      if negb (startswith raw_chunk (lit "data: ")) then iter_lines rest e
      else
        let data_str := drop 6 raw_chunk in
        if str_eqb (strip data_str) (lit "[DONE]") then Return
        else
          match read_token data_str with
          | Ok token =>
              if truthy token then Yield token (iter_lines rest e)
              else iter_lines rest e
          | Raise x =>
              if skipped x then iter_lines rest e else on_exception x
          end
  end.

(** The outer [try] of [stream_chat], once the request body is built. *)
Definition stream_request (body : payload) : gen :=
  Emit (EvPost LLM_CHAT_COMPLETIONS_ENDPOINT body)
    match httpx_stream LLM_CHAT_COMPLETIONS_ENDPOINT body with
    | Raise x => on_exception x
    | Ok r =>
        match raise_for_status r with
        | Raise x => on_exception x
        | Ok _ => iter_lines (body_lines r) (ending r)
        end
    end.

(** [stream_chat(question, chat_history, model_choice)] is a generator
    object; its body starts at the first [next()], in the heap of that
    moment, which is the argument [h].  The request body is encoded when the
    request is sent: [read_list] takes the messages as they are then.  (The
    elements of a conversation are message dictionaries, by the annotation
    [List[Dict[str, str]]]; anything else is taken to fail the encoding.) *)
Definition stream_chat (question : pystr) (chat_history : loc)
    (model_choice : option pystr) (h : heap) : heap * gen :=
  if negb (truthy_opt model_choice) then
    (h, Yield (PStr select_model_warning) Return)
  else
    let model := default [] model_choice in
    let '(d, h1) := alloc h (ODict (Message (lit "user") question)) in
    match list_add h1 chat_history [d] with
    | Raise x => (h1, Throw x)
    | Ok (messages, h2) =>
        match read_list h2 messages with
        | None => (h2, on_exception TypeError)
        | Some ms =>
            (h2, stream_request
                   {| p_model := model; p_messages := ms; p_stream := true |})
        end
    end.

(** *** [respond] *)

(** [for token in bot_stream: ...], with [buffer] as it stands. *)
Fixpoint respond_loop (bot_stream : gen) (chat_history : loc)
    (buffer : pystr) (h : heap) : run :=
  match bot_stream with
  | Emit e k =>
      let '(t, h', r) := respond_loop k chat_history buffer h in
      (Effect e :: t, h', r)
  | Return => ([], h, Ok ())
  | Throw x => ([], h, Raise x)
  | Yield (PStr token) k =>
      let buffer := buffer ++ token in
      match set_last_item h chat_history (lit "content") (PStr buffer) with
      | Raise x => ([], h, Raise x)
      | Ok h1 =>
          let '(t, h', r) := respond_loop k chat_history buffer h1 in
          (Update chat_history (read_list h1 chat_history) [] :: t, h', r)
      end
  | Yield _ _ => ([], h, Raise TypeError)
  end.

(** [respond(message, chat_history, model_choice)], driven to its end. *)
Definition respond (message : pystr) (chat_history : loc)
    (model_choice : option pystr) (h : heap) : run :=
  let bot_stream := stream_chat message chat_history model_choice in
  let '(u, h1) := alloc h (ODict (Message (lit "user") message)) in
  match list_append h1 chat_history u with
  | Raise x => ([], h1, Raise x)
  | Ok h2 =>
      let '(a, h3) := alloc h2 (ODict (Message (lit "assistant") [])) in
      match list_append h3 chat_history a with
      | Raise x => ([], h3, Raise x)
      | Ok h4 =>
          let first := Update chat_history (read_list h4 chat_history) [] in
          let '(h5, g) := bot_stream h4 in
          let '(t, h', r) := respond_loop g chat_history [] h5 in
          (first :: t, h', r)
      end
  end.

(** *** [refresh_dropdown] *)

(** [refresh_dropdown()]: the events, and the update returned or the
    exception raised. *)
Definition refresh_dropdown : list event * result dropdown_update :=
  let '(evs, r) := fetch_models in
  (evs,
   '(choices, default) ← r;
   match choices with
   | [] =>
       Ok {| upd_choices := [PStr backend_unreachable]; upd_value := PNone;
             upd_interactive := false |}
   | _ :: _ =>
       Ok {| upd_choices := choices; upd_value := default;
             upd_interactive := true |}
   end).

(** *** Payloads of the event stream *)


(** *** Failures of the model listing *)

(** The ways the discovery call fails, with the exception each one raises
    inside the guarded part of [fetch_models]: the request itself fails, the
    status is outside 2xx, or the body cannot be decoded. *)
Inductive discovery_fails : exn -> Prop :=
| fails_network x :
    serve_get net LLM_MODELS_ENDPOINT = Raise x -> discovery_fails x
| fails_status status body :
    serve_get net LLM_MODELS_ENDPOINT = Ok (status, body) ->
    is_success status = false ->
    discovery_fails (HTTPStatusError status (Some body))
| fails_body status body x :
    serve_get net LLM_MODELS_ENDPOINT = Ok (status, body) ->
    is_success status = true ->
    json_loads (Json.drop_signature body) = Raise x ->
    discovery_fails x.

(** ** Properties *)

(** *** The heap *)

Lemma alloc_spec (h : heap) o l h' :
  alloc h o = (l, h') -> h !! l = None /\ h' = <[l := o]> h.
Proof.
  unfold alloc. intros [= <- <-]. split; [|done].
  apply not_elem_of_dom, is_fresh.
Qed.

Lemma read_dict_insert_ne (h : heap) l o d :
  l <> d -> read_dict (<[l := o]> h) d = read_dict h d.
Proof. intros Hne. unfold read_dict. by rewrite lookup_insert_ne. Qed.

Lemma read_dict_is_Some (h : heap) d fs :
  read_dict h d = Some fs -> h !! d = Some (ODict fs).
Proof.
  unfold read_dict. destruct (h !! d) as [[?|?]|]; congruence.
Qed.

Lemma read_dict_insert_eq (h : heap) d fs :
  read_dict (<[d := ODict fs]> h) d = Some fs.
Proof. unfold read_dict. by rewrite lookup_insert_eq. Qed.

(** Writing an object that is not among [ds] leaves the reading of [ds]
    as it was. *)
Lemma read_all_insert (h : heap) l o ds ms :
  l ∉ ds ->
  mapM (read_dict h) ds = Some ms ->
  mapM (read_dict (<[l := o]> h)) ds = Some ms.
Proof.
  intros Hl. rewrite !mapM_Some. intros HF.
  induction HF as [|d m ds ms Hd _ IH]; constructor.
  - rewrite read_dict_insert_ne; [done|]. set_solver.
  - apply IH. set_solver.
Qed.

(** Every object read as a message is a dictionary of the heap. *)
Lemma read_all_elem (h : heap) ds ms d :
  mapM (read_dict h) ds = Some ms ->
  d ∈ ds ->
  exists fs, h !! d = Some (ODict fs).
Proof.
  rewrite mapM_Some. intros HF Hin.
  apply list_elem_of_lookup in Hin as [i Hi].
  destruct (Forall2_lookup_l _ _ _ _ _ HF Hi) as (m & _ & Hm).
  apply read_dict_is_Some in Hm. eauto.
Qed.

Lemma read_all_fresh (h : heap) l ds ms :
  h !! l = None ->
  mapM (read_dict h) ds = Some ms ->
  l ∉ ds.
Proof.
  intros Hl Hds Hin.
  destruct (read_all_elem _ _ _ _ Hds Hin) as [fs Hfs]. congruence.
Qed.

Lemma read_all_not_list (h : heap) l xs ds ms :
  h !! l = Some (OList xs) ->
  mapM (read_dict h) ds = Some ms ->
  l ∉ ds.
Proof.
  intros Hl Hds Hin.
  destruct (read_all_elem _ _ _ _ Hds Hin) as [fs Hfs]. congruence.
Qed.

(** A heap that keeps every object of [h] reads the same messages. *)
Lemma read_all_mono (h h' : heap) ds ms :
  (forall l o, h !! l = Some o -> h' !! l = Some o) ->
  mapM (read_dict h) ds = Some ms ->
  mapM (read_dict h') ds = Some ms.
Proof.
  intros Hsub. rewrite !mapM_Some. intros HF.
  induction HF as [|d m ds ms Hd _ IH]; constructor; [|done].
  apply read_dict_is_Some, Hsub in Hd. unfold read_dict. by rewrite Hd.
Qed.

Lemma read_all_snoc (h : heap) ds ms d m :
  mapM (read_dict h) ds = Some ms ->
  read_dict h d = Some m ->
  mapM (read_dict h) (ds ++ [d]) = Some (ms ++ [m]).
Proof.
  rewrite !mapM_Some. intros HF Hd.
  apply Forall2_app; [done|]. by constructor.
Qed.

Lemma read_list_unfold (h : heap) l ds :
  h !! l = Some (OList ds) -> read_list h l = mapM (read_dict h) ds.
Proof. intros Hl. unfold read_list. by rewrite Hl. Qed.

Lemma read_list_inv (h : heap) l ms :
  read_list h l = Some ms ->
  exists ds, h !! l = Some (OList ds) /\ mapM (read_dict h) ds = Some ms.
Proof.
  unfold read_list. destruct (h !! l) as [[ds|?]|]; try congruence. eauto.
Qed.

(** *** [stream_chat] called on its own *)

(** With a model, the generator, once started, builds its request from the
    conversation as the list object holds it at that moment, followed by the
    question; the objects already in the heap are left alone. *)
Lemma stream_chat_started question chat_history model (h : heap) ms :
  truthy_opt (Some model) = true ->
  read_list h chat_history = Some ms ->
  exists h' : heap,
    stream_chat question chat_history (Some model) h =
      (h', stream_request
             {| p_model := model;
                p_messages := ms ++ [Message (lit "user") question];
                p_stream := true |})
    /\ forall l o, h !! l = Some o -> h' !! l = Some o.
Proof.
  intros Hm Hread.
  destruct (read_list_inv _ _ _ Hread) as (ds & Hl & Hds).
  unfold stream_chat. rewrite Hm. cbn [negb default].
  destruct (alloc h _) as [d h1] eqn:Ha.
  apply alloc_spec in Ha as [Hd ->].
  assert (d <> chat_history) as Hne by congruence.
  unfold list_add. rewrite lookup_insert_ne, Hl by done.
  destruct (alloc _ (OList _)) as [l h2] eqn:Hb.
  apply alloc_spec in Hb as [Hfresh ->].
  assert (l <> d) as Hld.
  { intros ->. by rewrite lookup_insert_eq in Hfresh. }
  assert (h !! l = None) as Hl0 by (by rewrite lookup_insert_ne in Hfresh).
  erewrite read_list_unfold by apply lookup_insert_eq.
  erewrite read_all_snoc; cycle 1.
  - apply read_all_insert; [by eapply read_all_fresh|].
    apply read_all_insert; [by eapply read_all_fresh|done].
  - rewrite read_dict_insert_ne by done. apply read_dict_insert_eq.
  - eexists. split; [done|].
    intros l' o' Hl'.
    rewrite !lookup_insert_ne; [done|congruence..].
Qed.

(** *** The request and the line loop *)

Lemma iter_lines_cons raw_chunk rest e :
  iter_lines (raw_chunk :: rest) e =
    if negb (startswith raw_chunk (lit "data: ")) then iter_lines rest e
    else
      if str_eqb (strip (drop 6 raw_chunk)) (lit "[DONE]") then Return
      else
        match read_token (drop 6 raw_chunk) with
        | Ok token =>
            if truthy token then Yield token (iter_lines rest e)
            else iter_lines rest e
        | Raise x =>
            if skipped x then iter_lines rest e else on_exception x
        end.
Proof. reflexivity. Qed.

(** A 2xx answer: the request is sent and the lines are consumed. *)
Lemma stream_request_success body status lines e :
  serve_post net LLM_CHAT_COMPLETIONS_ENDPOINT body = Ok (status, lines, e) ->
  is_success status = true ->
  stream_request body =
    Emit (EvPost LLM_CHAT_COMPLETIONS_ENDPOINT body) (iter_lines lines e).
Proof.
  intros Hpost Hok. unfold stream_request, httpx_stream, raise_for_status.
  rewrite Hpost. cbn. by rewrite Hok.
Qed.

(** An answer outside 2xx: [raise_for_status] raises, the first handler
    asks the unread response for its text, and that raises in turn. *)
Lemma stream_request_status_error body status lines e :
  serve_post net LLM_CHAT_COMPLETIONS_ENDPOINT body = Ok (status, lines, e) ->
  is_success status = false ->
  stream_request body =
    Emit (EvPost LLM_CHAT_COMPLETIONS_ENDPOINT body) (Throw ResponseNotRead).
Proof.
  intros Hpost Hok. unfold stream_request, httpx_stream, raise_for_status.
  rewrite Hpost. cbn. by rewrite Hok.
Qed.

(** The line loop stops at the sentinel whatever follows it. *)
Lemma iter_lines_done pre post e :
  iter_lines (pre ++ lit "data: [DONE]" :: post) e = iter_lines pre Closed.
Proof.
  induction pre as [|raw_chunk pre IH].
  - reflexivity.
  - rewrite <- app_comm_cons, !iter_lines_cons, IH. reflexivity.
Qed.



(** *** [respond] *)

Lemma yields_update ref shown input t :
  yields (Update ref shown input :: t) = shown :: yields t.
Proof. reflexivity. Qed.

Lemma yields_effect e t : yields (Effect e :: t) = yields t.
Proof. reflexivity. Qed.

(** The state of a turn while the assistant message [a] is open: it is the
    last element of the conversation, it holds [buffer], and the messages
    before it read as [pre]. *)
Lemma respond_loop_yields g : forall toks buffer (h : heap) chat_history ds a pre,
  items g = map PStr toks ->
  h !! chat_history = Some (OList (ds ++ [a])) ->
  h !! a = Some (ODict (Message (lit "assistant") buffer)) ->
  mapM (read_dict h) ds = Some pre ->
  a ∉ ds ->
  a <> chat_history ->
  exists t h' r,
    respond_loop g chat_history buffer h = (t, h', r) /\
    yields t =
      map (fun k => Some (pre ++ [Message (lit "assistant")
                                     (buffer ++ concat (take k toks))]))
          (seq 1 (length toks)).
Proof.
  induction g as [item k IH|e k IH| |x];
    intros toks buffer h chat_history ds a pre Hitems Hl Ha Hpre Hnin Hne.
  - destruct toks as [|tok toks]; [discriminate|].
    cbn in Hitems. injection Hitems as -> Hk.
    cbn [respond_loop]. unfold set_last_item.
    rewrite Hl, last_snoc, Ha.
    change (dict_set (Message (lit "assistant") buffer) (lit "content")
              (PStr (buffer ++ tok)))
      with (Message (lit "assistant") (buffer ++ tok)).
    set (h1 := <[a := _]> h).
    assert (h1 !! chat_history = Some (OList (ds ++ [a]))) as Hl1
      by (unfold h1; by rewrite lookup_insert_ne).
    assert (mapM (read_dict h1) ds = Some pre) as Hpre1
      by (by apply read_all_insert).
    destruct (IH toks (buffer ++ tok) h1 chat_history ds a pre)
      as (t & h' & r & Hrun & Hy); try done.
    { unfold h1. apply lookup_insert_eq. }
    rewrite Hrun. exists (Update chat_history (read_list h1 chat_history) [] :: t), h', r.
    split; [done|].
    erewrite read_list_unfold by done.
    erewrite read_all_snoc; [|done|apply read_dict_insert_eq].
    rewrite yields_update, Hy. cbn [length seq map].
    cbn [take concat]. rewrite app_nil_r. f_equal.
    rewrite <- (seq_shift (length toks) 1), map_map. apply map_ext. intros n.
    cbn [take concat]. by rewrite app_assoc.
  - cbn in Hitems. cbn [respond_loop].
    destruct (IH toks buffer h chat_history ds a pre)
      as (t & h' & r & Hrun & Hy); try done.
    rewrite Hrun. exists (Effect e :: t), h', r. by rewrite yields_effect.
  - destruct toks; [|discriminate]. by exists [], h, (Ok ()).
  - destruct toks; [|discriminate]. by exists [], h, (Raise x).
Qed.

(** [respond] opens the turn in the list object it was given, and only then
    starts the stream: the generator reads the conversation with the two new
    messages already in it. *)
Lemma respond_started message chat_history model (h : heap) ms :
  truthy_opt (Some model) = true ->
  read_list h chat_history = Some ms ->
  let u := Message (lit "user") message in
  let a := Message (lit "assistant") [] in
  let body := {| p_model := model; p_messages := ms ++ [u; a; u];
                 p_stream := true |} in
  exists (h5 : heap) ds la,
    respond message chat_history (Some model) h =
      (let '(t, h', r) := respond_loop (stream_request body) chat_history [] h5 in
       (Update chat_history (Some (ms ++ [u; a])) [] :: t, h', r))
    /\ h5 !! chat_history = Some (OList (ds ++ [la]))
    /\ h5 !! la = Some (ODict a)
    /\ mapM (read_dict h5) ds = Some (ms ++ [u])
    /\ (la ∉ ds)
    /\ la <> chat_history.
Proof.
  intros Hm Hread u a body.
  destruct (read_list_inv _ _ _ Hread) as (xs & Hl & Hxs).
  unfold respond.
  destruct (alloc h _) as [lu h1] eqn:Hu.
  apply alloc_spec in Hu as [Hu ->].
  assert (lu <> chat_history) as Hne1 by congruence.
  unfold list_append at 1. rewrite lookup_insert_ne, Hl by done.
  set (h1 := <[lu := _]> h).
  set (h2 := <[chat_history := _]> h1).
  assert (mapM (read_dict h1) (xs ++ [lu]) = Some (ms ++ [u])) as R1.
  { apply read_all_snoc; [|apply read_dict_insert_eq].
    apply read_all_insert; [by eapply read_all_fresh|done]. }
  assert (h1 !! chat_history = Some (OList xs)) as Hl1
    by (unfold h1; by rewrite lookup_insert_ne).
  assert (mapM (read_dict h2) (xs ++ [lu]) = Some (ms ++ [u])) as R2.
  { apply read_all_insert; [by eapply read_all_not_list|done]. }
  destruct (alloc h2 _) as [la h3] eqn:Ha.
  apply alloc_spec in Ha as [Ha ->].
  assert (h2 !! chat_history = Some (OList (xs ++ [lu]))) as Hl2
    by apply lookup_insert_eq.
  assert (la <> chat_history) as Hne2 by congruence.
  assert (la ∉ xs ++ [lu]) as Hnin by (by eapply read_all_fresh).
  unfold list_append. rewrite lookup_insert_ne, Hl2 by done.
  set (h3 := <[la := _]> h2).
  set (h4 := <[chat_history := _]> h3).
  assert (mapM (read_dict h4) ((xs ++ [lu]) ++ [la]) = Some ((ms ++ [u]) ++ [a]))
    as R4.
  { apply read_all_insert.
    - eapply (read_all_not_list h3).
      + unfold h3. rewrite lookup_insert_ne by done. apply Hl2.
      + apply read_all_snoc; [|apply read_dict_insert_eq].
        by apply read_all_insert.
    - apply read_all_snoc; [|apply read_dict_insert_eq].
      by apply read_all_insert. }
  assert (h4 !! chat_history = Some (OList ((xs ++ [lu]) ++ [la]))) as Hl4
    by apply lookup_insert_eq.
  assert (read_list h4 chat_history = Some ((ms ++ [u]) ++ [a])) as Hread4
    by (by erewrite read_list_unfold).
  destruct (stream_chat_started message chat_history model h4 _ Hm Hread4)
    as (h5 & Hstart & Hkeep).
  rewrite Hread4, Hstart.
  replace (((ms ++ [u]) ++ [a]) ++ [Message (lit "user") message])
    with (ms ++ [u; a; u]) by (by rewrite <- !app_assoc).
  replace ((ms ++ [u]) ++ [a]) with (ms ++ [u; a]) by (by rewrite <- !app_assoc).
  exists h5, (xs ++ [lu]), la. split; [done|].
  split; [by apply Hkeep|].
  split.
  { apply Hkeep. unfold h4, h3.
    rewrite lookup_insert_ne by done. apply lookup_insert_eq. }
  split; [|done].
  apply (read_all_mono h4); [done|].
  apply read_all_insert.
  - apply (read_all_not_list h2 _ _ _ _ Hl2 R2).
  - by apply read_all_insert.
Qed.

Lemma posts_update ref shown input t :
  posts (Update ref shown input :: t) = posts t.
Proof. reflexivity. Qed.

Lemma posts_effect_post url body t :
  posts (Effect (EvPost url body) :: t) = body :: posts t.
Proof. reflexivity. Qed.

Lemma requests_on_exception x : requests (effects (on_exception x)) = [].
Proof.
  destruct x as [| | | | | | |status [text|]| |]; reflexivity.
Qed.

Lemma requests_iter_lines lines e : requests (effects (iter_lines lines e)) = [].
Proof.
  induction lines as [|raw_chunk rest IH].
  - destruct e; [reflexivity|apply requests_on_exception].
  - rewrite iter_lines_cons.
    destruct (negb _); [done|].
    destruct (str_eqb _ _); [done|].
    destruct (read_token _) as [token|x].
    + by destruct (truthy token).
    + destruct (skipped x); [done|apply requests_on_exception].
Qed.

(** Consuming a stream sends what the stream sends, and at most that. *)
Lemma respond_loop_posts g : forall chat_history buffer (h : heap),
  requests (effects g) = [] ->
  posts (respond_loop g chat_history buffer h).1.1 = [].
Proof.
  induction g as [item k IH|e k IH| |x]; intros chat_history buffer h Hg.
  - cbn [respond_loop]. destruct item; try done.
    destruct (set_last_item _ _ _ _) as [h1|x]; [|done].
    specialize (IH chat_history (buffer ++ s) h1 Hg).
    by destruct (respond_loop k _ _ _) as [[t h'] r].
  - cbn [respond_loop].
    assert (requests (effects k) = []) as Hk by (by destruct e).
    specialize (IH chat_history buffer h Hk).
    destruct (respond_loop k _ _ _) as [[t h'] r]. by destruct e.
  - done.
  - done.
Qed.

(** *** [fetch_models] *)

Lemma collect_ids_dicts ms :
  collect_ids (map PDict ms) = Ok (omap (fun m => dict_get m (lit "id")) ms).
Proof.
  induction ms as [|m ms IH]; [done|].
  cbn -[lit]. destruct (dict_get m (lit "id")) as [x|]; cbn -[lit].
  - by rewrite IH.
  - done.
Qed.

Lemma omap_all_some {A B} (f : A -> option B) xs ys :
  Forall2 (fun x y => f x = Some y) xs ys -> omap f xs = ys.
Proof.
  induction 1 as [|x y xs ys Hx _ IH]; [done|].
  cbn. rewrite Hx. cbn. by rewrite IH.
Qed.

(** C8. When the model listing answers with a 2xx status and a body that
    decodes to an object whose [data] field is a list of model objects,
    [fetch_models] returns the identifiers of the objects that have one, in
    the order of the list, and the first of them as the default, or [None]
    when there is none.  In particular, when each of the N objects bears an
    identifier, exactly those N identifiers are returned. *)
Theorem fetch_models_lists_ids status body d ms :
  serve_get net LLM_MODELS_ENDPOINT = Ok (status, body) ->
  is_success status = true ->
  json_loads (Json.drop_signature body) = Ok (PDict d) ->
  dict_get d (lit "data") = Some (PList (map PDict ms)) ->
  let ids := omap (fun m => dict_get m (lit "id")) ms in
  fetch_models =
    ([EvGet LLM_MODELS_ENDPOINT],
     Ok (ids, match ids with x :: _ => x | [] => PNone end))
  /\ forall given,
       Forall2 (fun m i => dict_get m (lit "id") = Some i) ms given ->
       ids = given.
Proof.
  intros Hget Hok Hbody Hdata ids. split.
  - unfold fetch_models, fetch_models_request, httpx_get, raise_for_status.
    rewrite Hget. cbn -[lit]. rewrite Hok. cbn -[lit]. rewrite Hbody.
    cbn -[lit]. rewrite Hdata. cbn -[lit]. by rewrite collect_ids_dicts.
  - intros given. apply omap_all_some.
Qed.

(** The part of [fetch_models] after the [try] is not guarded: a body that
    decodes to anything but an object makes [data.get] raise. *)
Lemma fetch_models_non_object status body v :
  serve_get net LLM_MODELS_ENDPOINT = Ok (status, body) ->
  is_success status = true ->
  json_loads (Json.drop_signature body) = Ok v ->
  (forall d, v <> PDict d) ->
  fetch_models = ([EvGet LLM_MODELS_ENDPOINT], Raise AttributeError).
Proof.
  intros Hget Hok Hbody Hnd.
  unfold fetch_models, fetch_models_request, httpx_get, raise_for_status.
  rewrite Hget. cbn. rewrite Hok. cbn. rewrite Hbody.
  destruct v; try done. by destruct (Hnd kvs).
Qed.

(** The failures that the [try] of [fetch_models] covers (the request fails,
    the status is outside 2xx, or the body cannot be decoded): the failure is
    logged with the endpoint and the exception, and the empty list and
    [None] are returned. *)
Theorem fetch_models_failure x :
  discovery_fails x ->
  fetch_models =
    ([EvGet LLM_MODELS_ENDPOINT; fetch_models_log x], Ok ([], PNone)).
Proof.
  unfold fetch_models, fetch_models_request, httpx_get, raise_for_status.
  intros [x' Hget|status body Hget Hok|status body x' Hget Hok Hbody];
    rewrite Hget; cbn; [done|by rewrite Hok|].
  rewrite Hok. cbn. by rewrite Hbody.
Qed.

(** *** [stream_chat]: the precondition on the model *)

(** C6. With no model ([None]), whatever the question and the history,
    [stream_chat] yields one item, the warning that asks the user to select
    a model, and returns; it has no effect at all, so no request is sent. *)
Theorem stream_chat_without_model question chat_history (h : heap) :
  let g := (stream_chat question chat_history None h).2 in
  items g = [PStr select_model_warning] /\
  outcome g = Ok () /\
  effects g = [].
Proof. done. Qed.

(** C10. The empty string as model is treated exactly as [None]: the test
    is on truth, not on absence.  The run is the single warning, with no
    request. *)
Theorem stream_chat_empty_model question chat_history (h : heap) :
  stream_chat question chat_history (Some []) h =
    stream_chat question chat_history None h
  /\ let g := (stream_chat question chat_history (Some []) h).2 in
     items g = [PStr select_model_warning] /\
     outcome g = Ok () /\
     effects g = [].
Proof. done. Qed.

(** *** [stream_chat]: the event stream *)

(** C5. When the 2xx answer holds a line [data: [DONE]], the run of
    [stream_chat] is the run over the lines before it, ended as by a normal
    close: no line after the sentinel yields a token or has any other
    effect, and the way the connection ends no longer matters. *)
Theorem done_ends_stream question chat_history model (h : heap) ms
    status pre post e :
  truthy_opt (Some model) = true ->
  read_list h chat_history = Some ms ->
  let body := {| p_model := model;
                 p_messages := ms ++ [Message (lit "user") question];
                 p_stream := true |} in
  serve_post net LLM_CHAT_COMPLETIONS_ENDPOINT body =
    Ok (status, pre ++ lit "data: [DONE]" :: post, e) ->
  is_success status = true ->
  (stream_chat question chat_history (Some model) h).2 =
    Emit (EvPost LLM_CHAT_COMPLETIONS_ENDPOINT body) (iter_lines pre Closed).
Proof.
  intros Hm Hread body Hpost Hok.
  destruct (stream_chat_started question _ _ _ _ Hm Hread) as (h' & -> & _).
  cbn [snd]. erewrite stream_request_success by done.
  by rewrite iter_lines_done.
Qed.


(** A payload that decodes to anything but an object is outside what the
    inner handler covers: [chunk.get] raises [AttributeError], and the
    stream ends with the generic error item. *)
Lemma non_object_payload_aborts raw_chunk rest e v :
  startswith raw_chunk (lit "data: ") = true ->
  strip (drop 6 raw_chunk) <> lit "[DONE]" ->
  json_loads (drop 6 raw_chunk) = Ok v ->
  (forall d, v <> PDict d) ->
  iter_lines (raw_chunk :: rest) e = on_exception AttributeError.
Proof.
  intros Hdata Hdone Hv Hnd.
  rewrite iter_lines_cons, Hdata. cbn [negb].
  unfold str_eqb. rewrite bool_decide_eq_false_2 by done.
  unfold read_token. rewrite Hv.
  destruct v; try done. by destruct (Hnd kvs).
Qed.

(** *** [stream_chat]: failures *)

(** An answer outside 2xx leaves the generator as [ResponseNotRead], after
    the request and before any item or log entry. *)
Lemma stream_chat_status_error question chat_history model (h : heap) ms
    status lines e :
  truthy_opt (Some model) = true ->
  read_list h chat_history = Some ms ->
  let body := {| p_model := model;
                 p_messages := ms ++ [Message (lit "user") question];
                 p_stream := true |} in
  serve_post net LLM_CHAT_COMPLETIONS_ENDPOINT body = Ok (status, lines, e) ->
  is_success status = false ->
  (stream_chat question chat_history (Some model) h).2 =
    Emit (EvPost LLM_CHAT_COMPLETIONS_ENDPOINT body) (Throw ResponseNotRead).
Proof.
  intros Hm Hread body Hpost Hok.
  destruct (stream_chat_started question _ _ _ _ Hm Hread) as (h' & -> & _).
  cbn [snd]. by erewrite stream_request_status_error.
Qed.

(** Any exception other than [HTTPStatusError] that reaches the outer
    [try] is logged and turned into the generic error item, which ends the
    sequence. *)
Lemma on_exception_unexpected x :
  (forall status body, x <> HTTPStatusError status body) ->
  on_exception x =
    Emit (EvLogError
            (LogTextExn
               (lit "An unexpected error occurred during streaming: ") x)
            (Some x))
      (Yield (PStr unexpected_error_message) Return).
Proof.
  intros Hx. destruct x; try done. by destruct (Hx status body).
Qed.

(** A request that fails before any answer (no connection, a timeout) ends
    in the generic error item. *)
Lemma stream_chat_request_failure question chat_history model (h : heap) ms x :
  truthy_opt (Some model) = true ->
  read_list h chat_history = Some ms ->
  let body := {| p_model := model;
                 p_messages := ms ++ [Message (lit "user") question];
                 p_stream := true |} in
  serve_post net LLM_CHAT_COMPLETIONS_ENDPOINT body = Raise x ->
  (forall status text, x <> HTTPStatusError status text) ->
  (stream_chat question chat_history (Some model) h).2 =
    Emit (EvPost LLM_CHAT_COMPLETIONS_ENDPOINT body)
      (Emit (EvLogError
               (LogTextExn
                  (lit "An unexpected error occurred during streaming: ") x)
               (Some x))
         (Yield (PStr unexpected_error_message) Return)).
Proof.
  intros Hm Hread body Hpost Hx.
  destruct (stream_chat_started question _ _ _ _ Hm Hread) as (h' & -> & _).
  cbn [snd]. fold body. unfold stream_request, httpx_stream.
  rewrite Hpost. cbn. by rewrite on_exception_unexpected.
Qed.

(** *** [respond] *)

(** An item that is not text stops [respond]: [buffer += token] raises. *)
Lemma respond_loop_non_text item k chat_history buffer (h : heap) :
  (forall s, item <> PStr s) ->
  respond_loop (Yield item k) chat_history buffer h = ([], h, Raise TypeError).
Proof.
  intros Hs. destruct item; try done. by destruct (Hs s).
Qed.

(** The request of a turn driven by [respond]: after the first yield, and
    with the question twice and the empty assistant message in its
    messages. *)
Lemma respond_request message chat_history model (h : heap) ms :
  truthy_opt (Some model) = true ->
  read_list h chat_history = Some ms ->
  let u := Message (lit "user") message in
  let a := Message (lit "assistant") [] in
  let body := {| p_model := model; p_messages := ms ++ [u; a; u];
                 p_stream := true |} in
  exists rest h' r,
    respond message chat_history (Some model) h =
      (Update chat_history (Some (ms ++ [u; a])) [] ::
       Effect (EvPost LLM_CHAT_COMPLETIONS_ENDPOINT body) :: rest, h', r)
    /\ posts rest = [].
Proof.
  intros Hm Hread u a body.
  destruct (respond_started message _ _ _ _ Hm Hread)
    as (h5 & ds & la & -> & _).
  fold u a body. unfold stream_request. cbn [respond_loop].
  set (k := match httpx_stream _ _ with Ok _ => _ | Raise _ => _ end).
  assert (requests (effects k) = []) as Hk.
  { unfold k. destruct (httpx_stream _ _) as [r|x].
    - destruct (raise_for_status r) as [[]|x].
      + apply requests_iter_lines.
      + apply requests_on_exception.
    - apply requests_on_exception. }
  pose proof (respond_loop_posts k chat_history [] h5 Hk) as Hposts.
  destruct (respond_loop k _ _ _) as [[t h'] r].
  by exists t, h', r.
Qed.

(** C2. From an empty conversation and with a model, [respond] first yields
    the conversation of the question and an empty assistant message, before
    the request is sent and so before any token exists; then, for the text
    tokens [toks] the stream delivers, it yields once per token, the
    assistant message holding the tokens received so far, concatenated. *)
Theorem respond_yields_per_token message chat_history model (h : heap) toks :
  truthy_opt (Some model) = true ->
  h !! chat_history = Some (OList []) ->
  let u := Message (lit "user") message in
  let a := Message (lit "assistant") [] in
  let body := {| p_model := model; p_messages := [u; a; u];
                 p_stream := true |} in
  items (stream_request body) = map PStr toks ->
  exists rest h' r,
    respond message chat_history (Some model) h =
      (Update chat_history (Some [u; a]) [] ::
       Effect (EvPost LLM_CHAT_COMPLETIONS_ENDPOINT body) :: rest, h', r)
    /\ yields rest =
         map (fun k => Some [u; Message (lit "assistant")
                                 (concat (take k toks))])
             (seq 1 (length toks)).
Proof.
  intros Hm Hl u a body Hitems.
  assert (read_list h chat_history = Some []) as Hread
    by (unfold read_list; by rewrite Hl).
  destruct (respond_started message _ _ _ _ Hm Hread)
    as (h5 & ds & la & -> & Hl5 & Ha & Hds & Hnin & Hne).
  cbn [app] in *. fold u a body in Hds |- *.
  unfold stream_request in *. cbn [respond_loop]. cbn [items] in Hitems.
  destruct (respond_loop_yields _ toks [] h5 chat_history ds la [u]
              Hitems Hl5 Ha Hds Hnin Hne) as (t & h' & r & -> & Hy).
  by exists t, h', r.
Qed.

(** ** Further properties *)

(** *** The line loop of [stream_chat] *)

(** A line that does not start with [data: ] (a comment, a blank line, an
    [event:] field, a data field without the space after the colon) has no
    effect on the run. *)
Theorem non_data_line_ignored pre raw_chunk post e :
  startswith raw_chunk (lit "data: ") = false ->
  iter_lines (pre ++ raw_chunk :: post) e = iter_lines (pre ++ post) e.
Proof.
  intros Hdata. induction pre as [|l pre IH].
  - cbn [app]. by rewrite iter_lines_cons, Hdata.
  - rewrite <- !app_comm_cons, !iter_lines_cons, IH. reflexivity.
Qed.

(** The sentinel is recognised after white space is stripped from both ends
    of the payload: any such data line ends the run like a normal close. *)
Theorem stripped_sentinel_ends_stream pre raw_chunk post e :
  startswith raw_chunk (lit "data: ") = true ->
  strip (drop 6 raw_chunk) = lit "[DONE]" ->
  iter_lines (pre ++ raw_chunk :: post) e = iter_lines pre Closed.
Proof.
  intros Hdata Hdone. induction pre as [|l pre IH].
  - cbn [app]. rewrite iter_lines_cons, Hdata, Hdone. reflexivity.
  - rewrite <- app_comm_cons, !iter_lines_cons, IH. reflexivity.
Qed.

(** A data line whose first choice carries a content that is false in
    Python (the empty string, [null], zero, an empty list or object) yields
    nothing: the run is the run without the line. *)
Theorem falsy_content_skipped pre raw_chunk post e d c others dl v :
  startswith raw_chunk (lit "data: ") = true ->
  strip (drop 6 raw_chunk) <> lit "[DONE]" ->
  json_loads (drop 6 raw_chunk) = Ok (PDict d) ->
  dict_get d (lit "choices") = Some (PList (PDict c :: others)) ->
  dict_get c (lit "delta") = Some (PDict dl) ->
  dict_get dl (lit "content") = Some v ->
  truthy v = false ->
  iter_lines (pre ++ raw_chunk :: post) e = iter_lines (pre ++ post) e.
Proof.
  intros Hdata Hdone Hd Hc Hdl Hv Hfalse. induction pre as [|l pre IH].
  - cbn [app]. rewrite iter_lines_cons, Hdata. cbn [negb].
    unfold str_eqb. rewrite bool_decide_eq_false_2 by done.
    unfold read_token. rewrite Hd. cbn -[lit]. rewrite Hc. cbn -[lit].
    rewrite Hdl. cbn -[lit]. by rewrite Hv, Hfalse.
  - rewrite <- !app_comm_cons, !iter_lines_cons, IH. reflexivity.
Qed.

(** A data line whose first choice carries a content that is true in Python
    yields that content, whatever the other choices and the other fields
    hold, and the loop goes on with the next line. *)
Theorem content_line_yields raw_chunk rest e d c others dl v :
  startswith raw_chunk (lit "data: ") = true ->
  strip (drop 6 raw_chunk) <> lit "[DONE]" ->
  json_loads (drop 6 raw_chunk) = Ok (PDict d) ->
  dict_get d (lit "choices") = Some (PList (PDict c :: others)) ->
  dict_get c (lit "delta") = Some (PDict dl) ->
  dict_get dl (lit "content") = Some v ->
  truthy v = true ->
  iter_lines (raw_chunk :: rest) e = Yield v (iter_lines rest e).
Proof.
  intros Hdata Hdone Hd Hc Hdl Hv Htrue.
  rewrite iter_lines_cons, Hdata. cbn [negb].
  unfold str_eqb. rewrite bool_decide_eq_false_2 by done.
  unfold read_token. rewrite Hd. cbn -[lit]. rewrite Hc. cbn -[lit].
  rewrite Hdl. cbn -[lit]. by rewrite Hv, Htrue.
Qed.

Lemma truthy_unexpected_error_message :
  truthy (PStr unexpected_error_message) = true.
Proof. reflexivity. Qed.

Lemma truthy_http_error_message status :
  truthy (PStr (http_error_message status)) = true.
Proof. reflexivity. Qed.

Lemma items_on_exception_truthy x :
  Forall (fun v => truthy v = true) (items (on_exception x)).
Proof.
  destruct x as [| | | | | | |status [text|]| |]; cbn [on_exception
    response_text items]; repeat constructor.
Qed.

Lemma items_iter_lines_truthy lines e :
  Forall (fun v => truthy v = true) (items (iter_lines lines e)).
Proof.
  induction lines as [|raw_chunk rest IH].
  - destruct e; [constructor|apply items_on_exception_truthy].
  - rewrite iter_lines_cons.
    destruct (negb _); [done|].
    destruct (str_eqb _ _); [constructor|].
    destruct (read_token _) as [token|x].
    + destruct (truthy token) eqn:Ht; [by constructor|done].
    + destruct (skipped x); [done|apply items_on_exception_truthy].
Qed.

(** Whatever the question, the conversation, the model and the backend,
    [stream_chat] never yields an item that is false in Python: no empty
    string, no [None]. *)
Theorem stream_chat_items_truthy question chat_history model_choice (h : heap) :
  Forall (fun v => truthy v = true)
    (items (stream_chat question chat_history model_choice h).2).
Proof.
  unfold stream_chat.
  destruct (negb (truthy_opt model_choice)); [by repeat constructor|].
  destruct (alloc h _) as [d h1].
  destruct (list_add h1 chat_history [d]) as [[messages h2]|x];
    [|constructor].
  destruct (read_list h2 messages) as [ms|];
    [|apply items_on_exception_truthy].
  cbn [snd]. unfold stream_request. cbn [items].
  destruct (httpx_stream _ _) as [r|x]; [|apply items_on_exception_truthy].
  destruct (raise_for_status r) as [[]|x];
    [apply items_iter_lines_truthy|apply items_on_exception_truthy].
Qed.

Lemma requests_post url body es :
  requests (EvPost url body :: es) = body :: requests es.
Proof. reflexivity. Qed.

(** [stream_chat] sends at most one request, whatever happens: there is no
    retry on any path. *)
Theorem stream_chat_at_most_one_request question chat_history model_choice
    (h : heap) :
  (length (requests (effects (stream_chat question chat_history model_choice
                                h).2)) <= 1)%nat.
Proof.
  unfold stream_chat.
  destruct (negb (truthy_opt model_choice)); [cbn; lia|].
  destruct (alloc h _) as [d h1].
  destruct (list_add h1 chat_history [d]) as [[messages h2]|x]; [|cbn; lia].
  destruct (read_list h2 messages) as [ms|];
    [|cbn [snd]; rewrite requests_on_exception; cbn; lia].
  cbn [snd]. unfold stream_request. cbn [effects].
  set (k := match httpx_stream _ _ with Ok _ => _ | Raise _ => _ end).
  assert (requests (effects k) = []) as Hk.
  { unfold k. destruct (httpx_stream _ _) as [r|x].
    - destruct (raise_for_status r) as [[]|x].
      + apply requests_iter_lines.
      + apply requests_on_exception.
    - apply requests_on_exception. }
  rewrite requests_post, Hk. cbn. lia.
Qed.

(** [stream_chat] only allocates: every object of the heap, the
    conversation it was given included, is after the start of the generator
    what it was before. *)
Theorem stream_chat_keeps_objects question chat_history model_choice
    (h : heap) l o :
  h !! l = Some o ->
  (stream_chat question chat_history model_choice h).1 !! l = Some o.
Proof.
  intros Hl. unfold stream_chat.
  destruct (negb (truthy_opt model_choice)); [done|].
  destruct (alloc h _) as [d h1] eqn:Ha.
  apply alloc_spec in Ha as [Hd ->].
  assert (d <> l) as Hne by congruence.
  unfold list_add.
  destruct (<[d := _]> h !! chat_history) as [[xs|fs]|];
    try (cbn [fst]; by rewrite lookup_insert_ne).
  destruct (alloc _ (OList _)) as [m h2] eqn:Hb.
  apply alloc_spec in Hb as [Hm ->].
  assert (m <> l) as Hne'.
  { intros ->. rewrite lookup_insert_ne in Hm by done. congruence. }
  destruct (read_list _ m); cbn [fst]; by rewrite !lookup_insert_ne.
Qed.


(** More lines never change what was yielded: the items of the run over
    [pre], closed there, begin the items of the run over any longer
    answer. *)
Theorem items_grow_with_lines pre post e :
  exists more,
    items (iter_lines (pre ++ post) e) =
      items (iter_lines pre Closed) ++ more.
Proof.
  induction pre as [|raw_chunk pre [more IH]].
  - by eexists.
  - rewrite <- app_comm_cons, !iter_lines_cons.
    destruct (negb _); [by exists more|].
    destruct (str_eqb _ _); [by exists []|].
    destruct (read_token _) as [token|x].
    + destruct (truthy token); [|by exists more].
      exists more. cbn [items]. by rewrite IH.
    + destruct (skipped x); [by exists more|].
      exists []. by rewrite app_nil_r.
Qed.

(** A connection that fails after the last line costs no item: the run
    yields what it yields when the answer is closed normally, followed by
    at most the one generic error item. *)
Theorem dropped_connection_items lines :
  exists tail,
    items (iter_lines lines Dropped) =
      items (iter_lines lines Closed) ++ tail
    /\ (tail = [] \/ tail = [PStr unexpected_error_message]).
Proof.
  induction lines as [|raw_chunk rest (tail & IH & Htail)].
  - exists [PStr unexpected_error_message]. split; [done|by right].
  - rewrite !iter_lines_cons.
    destruct (negb _); [by exists tail|].
    destruct (str_eqb _ _); [exists []; split; [done|by left]|].
    destruct (read_token _) as [token|x].
    + destruct (truthy token); [|by exists tail].
      exists tail. cbn [items]. by rewrite IH.
    + destruct (skipped x); [by exists tail|].
      exists []. split; [by rewrite app_nil_r|by left].
Qed.

Lemma py_get_raises v k dflt x : py_get v k dflt = Raise x -> x = AttributeError.
Proof. destruct v; cbn; congruence. Qed.

Lemma py_item0_raises v x :
  py_item0 v = Raise x -> x = IndexError \/ x = KeyError \/ x = TypeError.
Proof.
  destruct v as [| | | |[|? ?]|[|? ?]|]; cbn; intros [= <-]; auto.
Qed.

(** The exceptions of the [try] body of the line loop: those of the
    decoder, and the four that the navigation of the decoded value raises. *)
Lemma read_token_raises data_str x :
  read_token data_str = Raise x ->
  json_loads data_str = Raise x \/
  x = AttributeError \/ x = IndexError \/ x = KeyError \/ x = TypeError.
Proof.
  unfold read_token.
  destruct (json_loads data_str) as [chunk|y];
    [|intros [= ->]; by left].
  intros H. right. cbn [mbind result_bind] in H.
  destruct (py_get chunk _ _) as [choices|y] eqn:H1; cbn -[lit] in H;
    [|injection H as <-; apply py_get_raises in H1; auto].
  destruct (py_item0 choices) as [first|y] eqn:H2; cbn -[lit] in H;
    [|injection H as <-; apply py_item0_raises in H2;
      destruct H2 as [ -> | [ -> | -> ] ]; auto].
  destruct (py_get first _ _) as [delta|y] eqn:H3; cbn -[lit] in H;
    [|injection H as <-; apply py_get_raises in H3; auto].
  apply py_get_raises in H. auto.
Qed.

Lemma outcome_on_exception x :
  (forall status body, x <> HTTPStatusError status body) ->
  outcome (on_exception x) = Ok ().
Proof.
  intros Hx. destruct x; try done. by destruct (Hx status body).
Qed.

Lemma outcome_iter_lines lines e :
  (forall s status body, json_loads s <> Raise (HTTPStatusError status body)) ->
  outcome (iter_lines lines e) = Ok ().
Proof.
  intros Hj. induction lines as [|raw_chunk rest IH].
  - by destruct e.
  - rewrite iter_lines_cons.
    destruct (negb _); [done|].
    destruct (str_eqb _ _); [done|].
    destruct (read_token _) as [token|x] eqn:Hx.
    + by destruct (truthy token).
    + destruct (skipped x); [done|].
      apply outcome_on_exception. intros status body ->.
      apply read_token_raises in Hx as [Hx|Hx].
      * by apply Hj in Hx.
      * destruct Hx as [Hx|[Hx|[Hx|Hx]]]; discriminate.
Qed.

(** Once the backend has answered with a 2xx status, no exception leaves
    [stream_chat]: whatever the lines hold and however the connection
    ends, the generator returns normally.  (The decoder is taken not to
    raise an HTTP status error, which is none of its exceptions.) *)
Theorem stream_chat_returns_after_success question chat_history model
    (h : heap) ms status lines e :
  (forall s st body, json_loads s <> Raise (HTTPStatusError st body)) ->
  truthy_opt (Some model) = true ->
  read_list h chat_history = Some ms ->
  serve_post net LLM_CHAT_COMPLETIONS_ENDPOINT
    {| p_model := model;
       p_messages := ms ++ [Message (lit "user") question];
       p_stream := true |} = Ok (status, lines, e) ->
  is_success status = true ->
  outcome (stream_chat question chat_history (Some model) h).2 = Ok ().
Proof.
  intros Hj Hm Hread Hpost Hok.
  destruct (stream_chat_started question _ _ _ _ Hm Hread) as (h' & -> & _).
  cbn [snd]. erewrite stream_request_success by done.
  cbn [outcome]. by apply outcome_iter_lines.
Qed.


(** *** [respond], on every path *)

Lemma text_prefix_map toks : text_prefix (map PStr toks) = toks.
Proof. induction toks as [|tok toks IH]; [done|]. cbn. by rewrite IH. Qed.

Lemma trace_effects_effect e t : trace_effects (Effect e :: t) = e :: trace_effects t.
Proof. reflexivity. Qed.

Lemma trace_effects_update ref shown input t :
  trace_effects (Update ref shown input :: t) = trace_effects t.
Proof. reflexivity. Qed.

Lemma read_open_turn (h : heap) chat_history ds a pre m :
  h !! chat_history = Some (OList (ds ++ [a])) ->
  h !! a = Some (ODict m) ->
  mapM (read_dict h) ds = Some pre ->
  read_list h chat_history = Some (pre ++ [m]).
Proof.
  intros Hl Ha Hpre. erewrite read_list_unfold by done.
  apply read_all_snoc; [done|]. unfold read_dict. by rewrite Ha.
Qed.

(** The loop of [respond] over any started stream, from a turn that is
    open: one yield per text item up to the first item that is not text,
    the assistant message left holding the text received, the outcome of
    the stream passed on, or [TypeError] at an item that is not text. *)
Lemma respond_loop_run g : forall buffer (h : heap) chat_history ds a pre,
  h !! chat_history = Some (OList (ds ++ [a])) ->
  h !! a = Some (ODict (Message (lit "assistant") buffer)) ->
  mapM (read_dict h) ds = Some pre ->
  a ∉ ds ->
  a <> chat_history ->
  exists t h' r,
    respond_loop g chat_history buffer h = (t, h', r) /\
    yields t =
      map (fun k => Some (pre ++ [Message (lit "assistant")
                                     (buffer ++ concat (take k (text_prefix (items g))))]))
          (seq 1 (length (text_prefix (items g)))) /\
    read_list h' chat_history =
      Some (pre ++ [Message (lit "assistant")
                      (buffer ++ concat (text_prefix (items g)))]) /\
    (items g = map PStr (text_prefix (items g)) ->
     r = outcome g /\ trace_effects t = effects g) /\
    (items g <> map PStr (text_prefix (items g)) -> r = Raise TypeError).
Proof.
  induction g as [item k IH|e k IH| |x];
    intros buffer h chat_history ds a pre Hl Ha Hpre Hnin Hne.
  - assert (read_list h chat_history =
              Some (pre ++ [Message (lit "assistant") (buffer ++ [])])) as Hnow
      by (rewrite app_nil_r; by eapply read_open_turn).
    destruct item as [| | | |tok| |];
      try (exists [], h, (Raise TypeError); by repeat split).
    cbn [respond_loop items text_prefix]. unfold set_last_item.
    rewrite Hl, last_snoc, Ha.
    change (dict_set (Message (lit "assistant") buffer) (lit "content")
              (PStr (buffer ++ tok)))
      with (Message (lit "assistant") (buffer ++ tok)).
    set (h1 := <[a := _]> h).
    assert (h1 !! chat_history = Some (OList (ds ++ [a]))) as Hl1
      by (unfold h1; by rewrite lookup_insert_ne).
    assert (h1 !! a = Some (ODict (Message (lit "assistant") (buffer ++ tok))))
      as Ha1 by (unfold h1; apply lookup_insert_eq).
    assert (mapM (read_dict h1) ds = Some pre) as Hpre1
      by (by apply read_all_insert).
    destruct (IH (buffer ++ tok) h1 chat_history ds a pre Hl1 Ha1 Hpre1 Hnin Hne)
      as (t & h' & r & Hrun & Hy & Hfinal & Htext & Hbad).
    rewrite Hrun.
    exists (Update chat_history (read_list h1 chat_history) [] :: t), h', r.
    split; [done|]. split; [|split; [|split]].
    + erewrite read_open_turn by done.
      rewrite yields_update, Hy. cbn [length seq map].
      cbn [take concat]. rewrite app_nil_r. f_equal.
      rewrite <- (seq_shift (length (text_prefix (items k))) 1), map_map.
      apply map_ext. intros n. cbn [take concat]. by rewrite app_assoc.
    + rewrite Hfinal. cbn [concat]. by rewrite app_assoc.
    + cbn [map]. intros [= Hk]. rewrite trace_effects_update. by apply Htext.
    + cbn [map]. intros Hk. apply Hbad. congruence.
  - cbn [respond_loop items].
    destruct (IH buffer h chat_history ds a pre Hl Ha Hpre Hnin Hne)
      as (t & h' & r & Hrun & Hy & Hfinal & Htext & Hbad).
    rewrite Hrun. exists (Effect e :: t), h', r.
    split; [done|]. split; [by rewrite yields_effect|].
    split; [done|]. split; [|done].
    intros Hk. destruct (Htext Hk) as [-> Heff].
    by rewrite trace_effects_effect, Heff.
  - exists [], h, (Ok ()). repeat split; try done.
    cbn. rewrite app_nil_r. by eapply read_open_turn.
  - exists [], h, (Raise x). repeat split; try done.
    cbn. rewrite app_nil_r. by eapply read_open_turn.
Qed.

(** [respond] up to the start of the stream, whatever the model: the two
    messages are appended to the list object, the conversation is yielded,
    and the stream starts in the heap [h4] that holds them. *)
Lemma respond_opened message chat_history model_choice (h : heap) ms :
  read_list h chat_history = Some ms ->
  let u := Message (lit "user") message in
  let a := Message (lit "assistant") [] in
  exists (h4 : heap) ds la,
    respond message chat_history model_choice h =
      (let '(h5, g) := stream_chat message chat_history model_choice h4 in
       let '(t, h', r) := respond_loop g chat_history [] h5 in
       (Update chat_history (Some (ms ++ [u; a])) [] :: t, h', r))
    /\ h4 !! chat_history = Some (OList (ds ++ [la]))
    /\ h4 !! la = Some (ODict a)
    /\ mapM (read_dict h4) ds = Some (ms ++ [u])
    /\ (la ∉ ds)
    /\ la <> chat_history.
Proof.
  intros Hread u a.
  destruct (read_list_inv _ _ _ Hread) as (xs & Hl & Hxs).
  unfold respond.
  destruct (alloc h _) as [lu h1] eqn:Hu.
  apply alloc_spec in Hu as [Hu ->].
  assert (lu <> chat_history) as Hne1 by congruence.
  unfold list_append at 1. rewrite lookup_insert_ne, Hl by done.
  set (h1 := <[lu := _]> h).
  set (h2 := <[chat_history := _]> h1).
  assert (mapM (read_dict h1) (xs ++ [lu]) = Some (ms ++ [u])) as R1.
  { apply read_all_snoc; [|apply read_dict_insert_eq].
    apply read_all_insert; [by eapply read_all_fresh|done]. }
  assert (h1 !! chat_history = Some (OList xs)) as Hl1
    by (unfold h1; by rewrite lookup_insert_ne).
  assert (mapM (read_dict h2) (xs ++ [lu]) = Some (ms ++ [u])) as R2.
  { apply read_all_insert; [by eapply read_all_not_list|done]. }
  destruct (alloc h2 _) as [la h3] eqn:Ha.
  apply alloc_spec in Ha as [Ha ->].
  assert (h2 !! chat_history = Some (OList (xs ++ [lu]))) as Hl2
    by apply lookup_insert_eq.
  assert (la <> chat_history) as Hne2 by congruence.
  assert (la ∉ xs ++ [lu]) as Hnin by (by eapply read_all_fresh).
  unfold list_append. rewrite lookup_insert_ne, Hl2 by done.
  set (h3 := <[la := _]> h2).
  set (h4 := <[chat_history := _]> h3).
  assert (mapM (read_dict h3) (xs ++ [lu]) = Some (ms ++ [u])) as R3
    by (by apply read_all_insert).
  assert (h3 !! chat_history = Some (OList (xs ++ [lu]))) as Hl3
    by (unfold h3; by rewrite lookup_insert_ne).
  assert (mapM (read_dict h4) (xs ++ [lu]) = Some (ms ++ [u])) as R4.
  { apply read_all_insert; [|done]. apply (read_all_not_list h3 _ _ _ _ Hl3 R3). }
  assert (h4 !! la = Some (ODict a)) as Hla.
  { unfold h4. rewrite lookup_insert_ne by done. apply lookup_insert_eq. }
  assert (h4 !! chat_history = Some (OList ((xs ++ [lu]) ++ [la]))) as Hl4
    by apply lookup_insert_eq.
  rewrite (read_open_turn h4 chat_history (xs ++ [lu]) la (ms ++ [u]) a Hl4 Hla R4).
  replace ((ms ++ [u]) ++ [a]) with (ms ++ [u; a]) by (by rewrite <- !app_assoc).
  by exists h4, (xs ++ [lu]), la.
Qed.


(** A whole turn with a model, for any conversation so far. *)
Lemma respond_turn message chat_history model (h : heap) ms :
  truthy_opt (Some model) = true ->
  read_list h chat_history = Some ms ->
  let u := Message (lit "user") message in
  let a := Message (lit "assistant") in
  let g := stream_request {| p_model := model;
                             p_messages := ms ++ [u; a []; u];
                             p_stream := true |} in
  let toks := text_prefix (items g) in
  exists t h' r,
    respond message chat_history (Some model) h = (t, h', r) /\
    yields t =
      Some (ms ++ [u; a []]) ::
      map (fun k => Some (ms ++ [u; a (concat (take k toks))]))
          (seq 1 (length toks)) /\
    read_list h' chat_history = Some (ms ++ [u; a (concat toks)]) /\
    (items g = map PStr toks -> r = outcome g /\ trace_effects t = effects g) /\
    (items g <> map PStr toks -> r = Raise TypeError).
Proof.
  intros Hm Hread u a g toks.
  destruct (respond_opened message chat_history (Some model) h ms Hread)
    as (h4 & ds & la & -> & Hl4 & Hla & Hds & Hnin & Hne).
  fold u (a []) in Hla, Hds |- *.
  assert (read_list h4 chat_history = Some (ms ++ [u; a []])) as Hread4.
  { erewrite read_open_turn by done. by rewrite <- app_assoc. }
  destruct (stream_chat_started message chat_history model h4 _ Hm Hread4)
    as (h5 & -> & Hkeep).
  replace ((ms ++ [u; a []]) ++ [Message (lit "user") message])
    with (ms ++ [u; a []; u]) by (by rewrite <- !app_assoc).
  fold g.
  destruct (respond_loop_run g [] h5 chat_history ds la (ms ++ [u]))
    as (t & h' & r & -> & Hy & Hfinal & Htext & Hbad);
    [by apply Hkeep|by apply Hkeep|by eapply read_all_mono|done|done|].
  eexists _, h', r. split; [done|].
  split; [|split; [|split]].
  - rewrite yields_update, Hy. f_equal. apply map_ext. intros n.
    cbn [app]. by rewrite <- app_assoc.
  - rewrite Hfinal. cbn [app]. by rewrite <- app_assoc.
  - intros Hk. rewrite trace_effects_update. by apply Htext.
  - done.
Qed.

(** Every yield of a turn shows the conversation as it was before the
    turn, unchanged and in order, followed by the question and the
    assistant message as it grows with the text tokens. *)
Theorem respond_preserves_history message chat_history model (h : heap)
    ms toks :
  truthy_opt (Some model) = true ->
  read_list h chat_history = Some ms ->
  let u := Message (lit "user") message in
  let a := Message (lit "assistant") in
  items (stream_request {| p_model := model;
                           p_messages := ms ++ [u; a []; u];
                           p_stream := true |}) = map PStr toks ->
  yields (respond message chat_history (Some model) h).1.1 =
    Some (ms ++ [u; a []]) ::
    map (fun k => Some (ms ++ [u; a (concat (take k toks))]))
        (seq 1 (length toks)).
Proof.
  cbv zeta. intros Hm Hread Hitems.
  destruct (respond_turn message _ _ _ _ Hm Hread)
    as (t & h' & r & -> & Hy & _).
  rewrite Hitems, text_prefix_map in Hy. apply Hy.
Qed.

(** At the end of a turn the list object the caller passed in holds the
    conversation so far, the question, and one assistant message with all
    the text of the stream; the effects of the turn are those of the
    stream, and the turn ends as the stream ends. *)
Theorem respond_final_conversation message chat_history model (h : heap)
    ms toks :
  truthy_opt (Some model) = true ->
  read_list h chat_history = Some ms ->
  let u := Message (lit "user") message in
  let a := Message (lit "assistant") in
  let g := stream_request {| p_model := model;
                             p_messages := ms ++ [u; a []; u];
                             p_stream := true |} in
  items g = map PStr toks ->
  let '(t, h', r) := respond message chat_history (Some model) h in
  read_list h' chat_history = Some (ms ++ [u; a (concat toks)]) /\
  trace_effects t = effects g /\
  r = outcome g.
Proof.
  cbv zeta. intros Hm Hread Hitems.
  destruct (respond_turn message _ _ _ _ Hm Hread)
    as (t & h' & r & -> & _ & Hfinal & Htext & _).
  rewrite Hitems, text_prefix_map in *.
  destruct (Htext eq_refl) as [-> Heff]. done.
Qed.

Lemma text_prefix_stops toks v more :
  (forall s, v <> PStr s) ->
  text_prefix (map PStr toks ++ v :: more) = toks.
Proof.
  intros Hv. induction toks as [|tok toks IH].
  - destruct v; try done. by destruct (Hv s).
  - cbn. by rewrite IH.
Qed.

(** An item that is not text (a number, a boolean, a list or an object as
    content) stops the turn with [TypeError]: the text received before it
    has been yielded and stays in the conversation, and nothing after it
    is consumed. *)
Theorem respond_stops_at_non_text message chat_history model (h : heap)
    ms toks v more :
  truthy_opt (Some model) = true ->
  read_list h chat_history = Some ms ->
  let u := Message (lit "user") message in
  let a := Message (lit "assistant") in
  items (stream_request {| p_model := model;
                           p_messages := ms ++ [u; a []; u];
                           p_stream := true |}) = map PStr toks ++ v :: more ->
  (forall s, v <> PStr s) ->
  let '(t, h', r) := respond message chat_history (Some model) h in
  r = Raise TypeError /\
  length (yields t) = S (length toks) /\
  read_list h' chat_history = Some (ms ++ [u; a (concat toks)]).
Proof.
  cbv zeta. intros Hm Hread Hitems Hv.
  destruct (respond_turn message _ _ _ _ Hm Hread)
    as (t & h' & r & -> & Hy & Hfinal & _ & Hbad).
  rewrite Hitems, text_prefix_stops in * by done.
  split; [|split; [|done]].
  - apply Hbad. intros Heq. apply (f_equal length) in Heq.
    rewrite length_app, !length_map in Heq. cbn in Heq. lia.
  - rewrite Hy. cbn [length]. by rewrite length_map, length_seq.
Qed.

(** The next turn on the same list object: its request carries the earlier
    conversation, the previous question, the previous answer in full, and
    then the new question, the empty assistant message and the new question
    again. *)
Theorem respond_next_turn message1 message2 chat_history model1 model2
    (h : heap) ms toks :
  truthy_opt (Some model1) = true ->
  truthy_opt (Some model2) = true ->
  read_list h chat_history = Some ms ->
  let a := Message (lit "assistant") in
  let u1 := Message (lit "user") message1 in
  let u2 := Message (lit "user") message2 in
  items (stream_request {| p_model := model1;
                           p_messages := ms ++ [u1; a []; u1];
                           p_stream := true |}) = map PStr toks ->
  let h1 := (respond message1 chat_history (Some model1) h).1.2 in
  posts (respond message2 chat_history (Some model2) h1).1.1 =
    [ {| p_model := model2;
         p_messages := ms ++ [u1; a (concat toks); u2; a []; u2];
         p_stream := true |} ].
Proof.
  cbv zeta. intros Hm1 Hm2 Hread Hitems.
  set (h1 := (respond message1 chat_history (Some model1) h).1.2).
  assert (read_list h1 chat_history =
            Some (ms ++ [Message (lit "user") message1;
                         Message (lit "assistant") (concat toks)]))
    as Hread1.
  { unfold h1.
    destruct (respond_turn message1 _ _ _ _ Hm1 Hread)
      as (t & h' & r & -> & _ & Hfinal & _).
    by rewrite Hitems, text_prefix_map in Hfinal. }
  destruct (respond_request message2 _ _ _ _ Hm2 Hread1)
    as (rest & h2 & r2 & -> & Hposts).
  cbn [fst]. rewrite posts_update, posts_effect_post, Hposts.
  by rewrite <- app_assoc.
Qed.


(** With no model, or the empty string as model, a turn sends nothing: it
    yields the conversation with the question, then the same with the
    select-a-model warning as the assistant message, and ends normally.
    The warning stays in the list object as the answer of the turn. *)
Theorem respond_without_model message chat_history model_choice (h : heap) ms :
  truthy_opt model_choice = false ->
  read_list h chat_history = Some ms ->
  let u := Message (lit "user") message in
  let a := Message (lit "assistant") in
  let '(t, h', r) := respond message chat_history model_choice h in
  yields t = [Some (ms ++ [u; a []]);
              Some (ms ++ [u; a select_model_warning])] /\
  trace_effects t = [] /\
  r = Ok () /\
  read_list h' chat_history = Some (ms ++ [u; a select_model_warning]).
Proof.
  cbv zeta. intros Hm Hread.
  destruct (respond_opened message chat_history model_choice h ms Hread)
    as (h4 & ds & la & -> & Hl4 & Hla & Hds & Hnin & Hne).
  unfold stream_chat. rewrite Hm. cbn [negb].
  destruct (respond_loop_run (Yield (PStr select_model_warning) Return) []
              h4 chat_history ds la _ Hl4 Hla Hds Hnin Hne)
    as (t & h' & r & -> & Hy & Hfinal & Htext & _).
  destruct (Htext eq_refl) as [-> Heff].
  cbn [items text_prefix length seq map take concat] in Hy, Hfinal.
  rewrite app_nil_r in Hy, Hfinal. cbn [app] in Hy, Hfinal.
  rewrite yields_update, trace_effects_update, Hy, Heff, Hfinal.
  by rewrite <- !app_assoc.
Qed.

(** A turn answered with a status outside 2xx: the conversation is yielded
    once, with the empty assistant message, the request is sent, and then
    [ResponseNotRead] leaves [respond]; no error text is shown, and the
    empty assistant message stays in the list object. *)
Theorem respond_raises_on_http_error message chat_history model (h : heap) ms
    status lines e :
  truthy_opt (Some model) = true ->
  read_list h chat_history = Some ms ->
  let u := Message (lit "user") message in
  let a := Message (lit "assistant") in
  let body := {| p_model := model; p_messages := ms ++ [u; a []; u];
                 p_stream := true |} in
  serve_post net LLM_CHAT_COMPLETIONS_ENDPOINT body = Ok (status, lines, e) ->
  is_success status = false ->
  let '(t, h', r) := respond message chat_history (Some model) h in
  r = Raise ResponseNotRead /\
  yields t = [Some (ms ++ [u; a []])] /\
  trace_effects t = [EvPost LLM_CHAT_COMPLETIONS_ENDPOINT body] /\
  read_list h' chat_history = Some (ms ++ [u; a []]).
Proof.
  cbv zeta. intros Hm Hread Hpost Hok.
  destruct (respond_turn message _ _ _ _ Hm Hread)
    as (t & h' & r & -> & Hy & Hfinal & Htext & _).
  rewrite (stream_request_status_error _ _ _ _ Hpost Hok) in *.
  destruct (Htext eq_refl) as [-> Heff]. done.
Qed.

(** A turn whose request fails before any answer (no connection, a
    timeout): the failure is logged, the generic error text becomes the
    assistant message, in the yield and in the list object, and the turn
    ends normally. *)
Theorem respond_shows_request_failure message chat_history model (h : heap)
    ms x :
  truthy_opt (Some model) = true ->
  read_list h chat_history = Some ms ->
  let u := Message (lit "user") message in
  let a := Message (lit "assistant") in
  let body := {| p_model := model; p_messages := ms ++ [u; a []; u];
                 p_stream := true |} in
  serve_post net LLM_CHAT_COMPLETIONS_ENDPOINT body = Raise x ->
  (forall status text, x <> HTTPStatusError status text) ->
  let '(t, h', r) := respond message chat_history (Some model) h in
  r = Ok () /\
  yields t = [Some (ms ++ [u; a []]);
              Some (ms ++ [u; a unexpected_error_message])] /\
  trace_effects t =
    [EvPost LLM_CHAT_COMPLETIONS_ENDPOINT body;
     EvLogError
       (LogTextExn (lit "An unexpected error occurred during streaming: ") x)
       (Some x)] /\
  read_list h' chat_history = Some (ms ++ [u; a unexpected_error_message]).
Proof.
  cbv zeta. intros Hm Hread Hpost Hx.
  destruct (respond_turn message _ _ _ _ Hm Hread)
    as (t & h' & r & -> & Hy & Hfinal & Htext & _).
  unfold stream_request, httpx_stream in *. rewrite Hpost in *.
  cbn [mbind result_bind] in *.
  rewrite (on_exception_unexpected x Hx) in *.
  destruct (Htext eq_refl) as [-> Heff].
  cbn [items text_prefix length seq map take concat] in Hy, Hfinal.
  rewrite app_nil_r in Hy, Hfinal. done.
Qed.

Lemma respond_loop_updates g : forall chat_history buffer (h : heap),
  Forall (fun o => match o with
                   | Update ref _ input => ref = chat_history /\ input = []
                   | Effect _ => True
                   end)
    (respond_loop g chat_history buffer h).1.1.
Proof.
  induction g as [item k IH|e k IH| |x]; intros chat_history buffer h.
  - cbn [respond_loop]. destruct item; try constructor.
    destruct (set_last_item _ _ _ _) as [h1|x]; [|constructor].
    specialize (IH chat_history (buffer ++ s) h1).
    destruct (respond_loop k _ _ _) as [[t h'] r]. by constructor.
  - cbn [respond_loop]. specialize (IH chat_history buffer h).
    destruct (respond_loop k _ _ _) as [[t h'] r]. by constructor.
  - constructor.
  - constructor.
Qed.

(** Whatever its arguments, the heap and the backend, every pair [respond]
    yields holds the list object it was given, never a copy, and the empty
    string that clears the input box. *)
Theorem respond_yields_same_object message chat_history model_choice
    (h : heap) :
  Forall (fun o => match o with
                   | Update ref _ input => ref = chat_history /\ input = []
                   | Effect _ => True
                   end)
    (respond message chat_history model_choice h).1.1.
Proof.
  unfold respond.
  destruct (alloc h _) as [lu h1].
  destruct (list_append h1 chat_history lu) as [h2|x]; [|constructor].
  destruct (alloc h2 _) as [la h3].
  destruct (list_append h3 chat_history la) as [h4|x]; [|constructor].
  destruct (stream_chat _ _ _ h4) as [h5 g].
  pose proof (respond_loop_updates g chat_history [] h5) as Hloop.
  destruct (respond_loop g _ _ _) as [[t h'] r]. by constructor.
Qed.


(** *** [fetch_models] and [refresh_dropdown], on every path *)

(** A 2xx answer whose body decodes to an object: the unguarded part of
    [fetch_models] runs on its [data] field, or on the empty list when the
    field is missing. *)
Lemma fetch_models_decoded status body d :
  serve_get net LLM_MODELS_ENDPOINT = Ok (status, body) ->
  is_success status = true ->
  json_loads (Json.drop_signature body) = Ok (PDict d) ->
  fetch_models =
    ([EvGet LLM_MODELS_ENDPOINT],
     models ← py_iter (match dict_get d (lit "data") with
                       | Some v => v
                       | None => PList []
                       end);
     choices ← collect_ids models;
     Ok (choices, match choices with x :: _ => x | [] => PNone end)).
Proof.
  intros Hget Hok Hbody.
  unfold fetch_models, fetch_models_request, httpx_get, raise_for_status.
  rewrite Hget. cbn -[lit]. rewrite Hok. cbn -[lit]. by rewrite Hbody.
Qed.

(** An answer that is an object without a [data] field is taken as a
    listing with no model: the empty list and [None] are returned, and
    nothing is logged. *)
Theorem fetch_models_without_data status body d :
  serve_get net LLM_MODELS_ENDPOINT = Ok (status, body) ->
  is_success status = true ->
  json_loads (Json.drop_signature body) = Ok (PDict d) ->
  dict_get d (lit "data") = None ->
  fetch_models = ([EvGet LLM_MODELS_ENDPOINT], Ok ([], PNone)).
Proof.
  intros Hget Hok Hbody Hdata.
  rewrite (fetch_models_decoded _ _ _ Hget Hok Hbody). by rewrite Hdata.
Qed.

Lemma py_contains_raises v k x : py_contains v k = Raise x -> x = TypeError.
Proof. destruct v; cbn; congruence. Qed.

Lemma py_getitem_raises v k x :
  py_contains v k = Ok true -> py_getitem v k = Raise x -> x = TypeError.
Proof.
  destruct v; cbn; try congruence.
  destruct (dict_get kvs k); congruence.
Qed.

(** The comprehension of [fetch_models] raises nothing but [TypeError]. *)
Lemma collect_ids_raises entries x :
  collect_ids entries = Raise x -> x = TypeError.
Proof.
  induction entries as [|entry entries IH]; [done|].
  cbn -[lit].
  destruct (py_contains entry (lit "id")) as [[|]|y] eqn:Hc; cbn -[lit].
  - destruct (py_getitem entry (lit "id")) as [id|y] eqn:Hg; cbn -[lit].
    + destruct (collect_ids entries) as [ids|y]; cbn; [done|].
      intros [= <-]. by apply IH.
    + intros [= <-]. by eapply py_getitem_raises.
  - done.
  - intros [= <-]. by eapply py_contains_raises.
Qed.

Lemma collect_ids_bad_entry entries v :
  v ∈ entries ->
  py_contains v (lit "id") = Raise TypeError ->
  collect_ids entries = Raise TypeError.
Proof.
  intros Hin Hv. induction entries as [|entry entries IH].
  - by apply elem_of_nil in Hin.
  - apply elem_of_cons in Hin as [<-|Hin].
    + cbn -[lit]. by rewrite Hv.
    + specialize (IH Hin).
      destruct (collect_ids (entry :: entries)) as [ids|y] eqn:Hrun.
      * cbn -[lit] in Hrun. rewrite IH in Hrun.
        destruct (py_contains entry (lit "id")) as [[|]|y]; cbn -[lit] in Hrun;
          [|done..].
        by destruct (py_getitem entry (lit "id")).
      * f_equal. by eapply collect_ids_raises.
Qed.

(** One entry of the listing that is [null], a boolean or a number makes
    [fetch_models] raise [TypeError] to its caller, whatever the other
    entries are, before it or after it; nothing is logged. *)
Theorem fetch_models_bad_entry_raises status body d entries v :
  serve_get net LLM_MODELS_ENDPOINT = Ok (status, body) ->
  is_success status = true ->
  json_loads (Json.drop_signature body) = Ok (PDict d) ->
  dict_get d (lit "data") = Some (PList entries) ->
  v ∈ entries ->
  (forall s, v <> PStr s) ->
  (forall xs, v <> PList xs) ->
  (forall kvs, v <> PDict kvs) ->
  fetch_models = ([EvGet LLM_MODELS_ENDPOINT], Raise TypeError).
Proof.
  intros Hget Hok Hbody Hdata Hin Hs Hl Hd.
  rewrite (fetch_models_decoded _ _ _ Hget Hok Hbody). rewrite Hdata.
  cbn -[lit]. rewrite (collect_ids_bad_entry entries v Hin); [done|].
  destruct v; try done.
  - by destruct (Hs s).
  - by destruct (Hl xs).
  - by destruct (Hd kvs).
Qed.

(** Whatever the backend does, an update returned by [refresh_dropdown] is
    of one of two kinds: the disabled dropdown with the single placeholder
    and no value, or an enabled dropdown whose list is not empty and whose
    value is the first entry of the list. *)
Theorem refresh_dropdown_invariant :
  match refresh_dropdown.2 with
  | Ok u =>
      (upd_interactive u = false /\
       upd_choices u = [PStr backend_unreachable] /\
       upd_value u = PNone)
      \/ (upd_interactive u = true /\
          exists others, upd_choices u = upd_value u :: others)
  | Raise _ => True
  end.
Proof.
  unfold refresh_dropdown, fetch_models.
  destruct fetch_models_request as [data|x]; cbn [snd].
  - destruct (py_get data _ _) as [listing|x]; [|done]. cbn -[lit].
    destruct (py_iter listing) as [models|x]; [|done]. cbn -[lit].
    destruct (collect_ids models) as [[|c cs]|x]; cbn; [by left| |done].
    right. split; [done|]. by exists cs.
  - by left.
Qed.

(** When the discovery call fails, [refresh_dropdown] logs the failure and
    returns the disabled dropdown with the placeholder: it raises nothing. *)
Theorem refresh_dropdown_on_failure x :
  discovery_fails x ->
  refresh_dropdown =
    ([EvGet LLM_MODELS_ENDPOINT; fetch_models_log x],
     Ok {| upd_choices := [PStr backend_unreachable]; upd_value := PNone;
           upd_interactive := false |}).
Proof.
  unfold refresh_dropdown, fetch_models, fetch_models_request, httpx_get,
    raise_for_status.
  intros [x' Hget|status body Hget Hok|status body x' Hget Hok Hbody];
    rewrite Hget; cbn; [done|by rewrite Hok|].
  rewrite Hok. cbn. by rewrite Hbody.
Qed.

(** For a 2xx listing of model objects, the dropdown offers the
    identifiers of the objects that have one, in order, with the first one
    selected.  When no object has an identifier, the empty listing
    included, the dropdown is the disabled placeholder, as for an
    unreachable backend, and nothing is logged. *)
Theorem refresh_dropdown_listing status body d ms :
  serve_get net LLM_MODELS_ENDPOINT = Ok (status, body) ->
  is_success status = true ->
  json_loads (Json.drop_signature body) = Ok (PDict d) ->
  dict_get d (lit "data") = Some (PList (map PDict ms)) ->
  refresh_dropdown =
    ([EvGet LLM_MODELS_ENDPOINT],
     Ok match omap (fun m => dict_get m (lit "id")) ms with
        | [] =>
            {| upd_choices := [PStr backend_unreachable]; upd_value := PNone;
               upd_interactive := false |}
        | first :: others =>
            {| upd_choices := first :: others; upd_value := first;
               upd_interactive := true |}
        end).
Proof.
  intros Hget Hok Hbody Hdata. unfold refresh_dropdown.
  rewrite (fetch_models_decoded _ _ _ Hget Hok Hbody). rewrite Hdata.
  cbn -[lit]. rewrite collect_ids_dicts. cbn -[lit].
  by destruct (omap _ ms).
Qed.

End Frontend.

(** ** The program on sample inputs *)

(** C3. For the answer made of the two token lines and the sentinel,
    [stream_chat] yields the tokens "Hel" and "lo", in that order, and
    returns. *)
Theorem stream_chat_hello url net question chat_history model (h : heap) ms
    status e :
  truthy_opt (Some model) = true ->
  read_list h chat_history = Some ms ->
  let body := {| p_model := model;
                 p_messages := ms ++ [Message (lit "user") question];
                 p_stream := true |} in
  serve_post net url body = Ok (status, hello_stream, e) ->
  is_success status = true ->
  let g := (stream_chat Json.loads url net question chat_history
              (Some model) h).2 in
  g = Emit (EvPost url body)
        (Yield (PStr (lit "Hel")) (Yield (PStr (lit "lo")) Return))
  /\ items g = [PStr (lit "Hel"); PStr (lit "lo")]
  /\ outcome g = Ok ().
Proof.
  intros Hm Hread body Hpost Hok g.
  assert (g = Emit (EvPost url body)
                (Yield (PStr (lit "Hel")) (Yield (PStr (lit "lo")) Return)))
    as ->; [|done].
  unfold g.
  destruct (stream_chat_started Json.loads url net question _ _ _ _ Hm Hread)
    as (h' & -> & _).
  cbn [snd]. fold body.
  rewrite (stream_request_success Json.loads url net _ _ _ _ Hpost Hok).
  reflexivity.
Qed.

(** The same on the sample backend, from an empty conversation. *)
Lemma stream_chat_hello_witness :
  let net := chat_backend 200 hello_stream Closed in
  let g := (stream_chat Json.loads chat_url net (lit "Hi") 1%positive
              (Some (lit "model-a")) empty_chat).2 in
  items g = [PStr (lit "Hel"); PStr (lit "lo")] /\ outcome g = Ok ().
Proof.
  intros net g.
  apply (stream_chat_hello chat_url net (lit "Hi") 1%positive (lit "model-a")
           empty_chat [] 200%Z Closed); reflexivity.
Defined.

(** A token line after the sentinel, and a connection that then fails:
    the two tokens before the sentinel are all there is. *)
Lemma done_ends_stream_witness :
  let net := chat_backend 200 late_stream Dropped in
  let g := (stream_chat Json.loads chat_url net (lit "Hi") 1%positive
              (Some (lit "model-a")) empty_chat).2 in
  items g = [PStr (lit "Hel"); PStr (lit "lo")] /\ outcome g = Ok ().
Proof.
  intros net g. unfold g.
  rewrite (done_ends_stream Json.loads chat_url net (lit "Hi") 1%positive
             (lit "model-a") empty_chat [] 200%Z
             (take 2 hello_stream)
             [jlit "data: {'choices':[{'delta':{'content':'!'}}]}"]
             Dropped); done.
Defined.

(** The turn "Hi" on the sample stream: three yields, the assistant message
    growing from empty to "Hel" to "Hello". *)
Lemma respond_yields_per_token_witness :
  let net := chat_backend 200 hello_stream Closed in
  let u := Message (lit "user") (lit "Hi") in
  let a := Message (lit "assistant") in
  exists rest h' r,
    respond Json.loads chat_url net (lit "Hi") 1%positive
      (Some (lit "model-a")) empty_chat
    = (Update 1%positive (Some [u; a []]) [] ::
       Effect (EvPost chat_url
                 {| p_model := lit "model-a"; p_messages := [u; a []; u];
                    p_stream := true |}) :: rest, h', r)
    /\ yields rest = [Some [u; a (lit "Hel")]; Some [u; a (lit "Hello")]].
Proof.
  intros net u a.
  apply (respond_yields_per_token Json.loads chat_url net (lit "Hi")
           1%positive (lit "model-a") empty_chat [lit "Hel"; lit "lo"]);
    reflexivity.
Defined.

(** The sample listing: two identifiers out of three objects, in order. *)
Lemma fetch_models_lists_ids_witness :
  let net := models_backend (Ok (200%Z, listing_body)) in
  fetch_models Json.loads models_url net =
    ([EvGet models_url],
     Ok ([PStr (lit "model-a"); PStr (lit "model-b")], PStr (lit "model-a"))).
Proof.
  intros net.
  apply (fetch_models_lists_ids Json.loads models_url net 200%Z listing_body
           [(lit "object", PStr (lit "list"));
            (lit "data",
             PList [PDict [(lit "id", PStr (lit "model-a"))];
                    PDict [(lit "object", PStr (lit "model"))];
                    PDict [(lit "id", PStr (lit "model-b"))]])]
           [[(lit "id", PStr (lit "model-a"))];
            [(lit "object", PStr (lit "model"))];
            [(lit "id", PStr (lit "model-b"))]]); reflexivity.
Defined.

(** A backend that answers 503 to the model listing. *)
Lemma fetch_models_failure_witness :
  let net := models_backend (Ok (503%Z, lit "Service Unavailable")) in
  let x := HTTPStatusError 503 (Some (lit "Service Unavailable")) in
  discovery_fails Json.loads models_url net x
  /\ fetch_models Json.loads models_url net =
       ([EvGet models_url; fetch_models_log models_url x], Ok ([], PNone)).
Proof.
  intros net x.
  assert (discovery_fails Json.loads models_url net x) as Hfail
    by (by apply fails_status).
  split; [done|].
  by apply (fetch_models_failure Json.loads models_url net x).
Defined.

(** C9 fails on the code.  A 2xx answer whose body is JSON of another shape
    than the listing gets past the [try]: the comprehension after it calls
    [data.get] on a list, or iterates [None], and the exception reaches the
    caller of [fetch_models]; nothing is logged and nothing is returned. *)
Theorem fetch_models_raises_on_unexpected_body :
  fetch_models Json.loads models_url
    (models_backend (Ok (200%Z, jlit "[1,2]")))
  = ([EvGet models_url], Raise AttributeError)
  /\ fetch_models Json.loads models_url
       (models_backend (Ok (200%Z, jlit "{'data':null}")))
     = ([EvGet models_url], Raise TypeError).
Proof. split; reflexivity. Qed.

(** C1 fails on the code.  For the turn [respond("Hi", [], "model-a")], the
    one request sent carries three messages: the question, the empty
    assistant message, and the question again. *)
Theorem respond_sends_question_twice json_loads url net :
  let u := Message (lit "user") (lit "Hi") in
  let a := Message (lit "assistant") [] in
  posts (respond json_loads url net (lit "Hi") 1%positive
           (Some (lit "model-a")) empty_chat).1.1
  = [ {| p_model := lit "model-a"; p_messages := [u; a; u];
         p_stream := true |} ]
  /\ [u; a; u] <> [] ++ [u].
Proof.
  intros u a. split; [|done].
  destruct (respond_request json_loads url net (lit "Hi") 1%positive
              (lit "model-a") empty_chat [] eq_refl eq_refl)
    as (rest & h' & r & -> & Hposts).
  cbn [fst]. by rewrite posts_update, posts_effect_post, Hposts.
Qed.



(** C7 fails on the code.  When the backend answers 500, [stream_chat]
    sends the request and then raises [ResponseNotRead] to its consumer: no
    item is yielded and nothing is logged. *)
Theorem stream_chat_http_500 json_loads :
  let net := chat_backend 500 [] Closed in
  let g := (stream_chat json_loads chat_url net (lit "Hi") 1%positive
              (Some (lit "model-a")) empty_chat).2 in
  items g = [] /\
  outcome g = Raise ResponseNotRead /\
  effects g =
    [EvPost chat_url
       {| p_model := lit "model-a";
          p_messages := [Message (lit "user") (lit "Hi")];
          p_stream := true |}].
Proof.
  intros net g. unfold g.
  by rewrite (stream_chat_status_error json_loads chat_url net (lit "Hi")
                1%positive (lit "model-a") empty_chat [] 500%Z [] Closed).
Qed.

(** ** Further properties on sample inputs *)

(** The three exceptions of the reference decoder. *)
Lemma loads_raises s x :
  Json.loads s = Raise x ->
  x = JSONDecodeError \/ x = ValueError \/ x = RecursionError.
Proof.
  unfold Json.loads, Json.decode.
  repeat case_match; intros [= <-]; auto.
  all: match goal with f : Json.failure |- _ => destruct f; cbn; auto end.
Qed.

(** A data field without the space after the colon is not a data line. *)
Lemma non_data_line_ignored_witness :
  let hel := jlit "data: {'choices':[{'delta':{'content':'Hel'}}]}" in
  let odd := jlit "data:{'choices':[{'delta':{'content':'XX'}}]}" in
  let lo := jlit "data: {'choices':[{'delta':{'content':'lo'}}]}" in
  startswith odd (lit "data: ") = false /\
  iter_lines Json.loads [hel; odd; lo] Closed =
    iter_lines Json.loads [hel; lo] Closed.
Proof.
  intros hel odd lo. split; [reflexivity|].
  apply (non_data_line_ignored Json.loads [hel] odd [lo] Closed). reflexivity.
Defined.

(** A sentinel with spaces around it ends the padded stream. *)
Lemma stripped_sentinel_ends_stream_witness :
  iter_lines Json.loads padded_stream Dropped =
    iter_lines Json.loads (take 6 padded_stream) Closed.
Proof.
  apply (stripped_sentinel_ends_stream Json.loads (take 6 padded_stream)
           (lit "data:   [DONE]  ")
           [jlit "data: {'choices':[{'delta':{'content':'!'}}]}"] Dropped);
    reflexivity.
Defined.

(** The chunk that opens a message, with a role and an empty content. *)
Lemma falsy_content_skipped_witness :
  let role :=
    jlit "data: {'choices':[{'delta':{'role':'assistant','content':''}}]}" in
  let hel := jlit "data: {'choices':[{'delta':{'content':'Hel'}}]}" in
  iter_lines Json.loads [role; hel] Closed = iter_lines Json.loads [hel] Closed.
Proof.
  intros role hel.
  apply (falsy_content_skipped Json.loads [] role [hel] Closed
           [(lit "choices",
             PList [PDict [(lit "delta",
                            PDict [(lit "role", PStr (lit "assistant"));
                                   (lit "content", PStr [])])]])]
           [(lit "delta",
             PDict [(lit "role", PStr (lit "assistant"));
                    (lit "content", PStr [])])]
           []
           [(lit "role", PStr (lit "assistant")); (lit "content", PStr [])]
           (PStr [])); done.
Defined.

(** A chunk with two choices and further fields: the content of the first
    choice is the token. *)
Lemma content_line_yields_witness :
  let line :=
    jlit "data: {'id':'c1','choices':[{'index':0,'delta':{'content':'Hel'}},{'index':1,'delta':{'content':'no'}}]}" in
  iter_lines Json.loads [line] Closed =
    Yield (PStr (lit "Hel")) (iter_lines Json.loads [] Closed).
Proof.
  intros line.
  apply (content_line_yields Json.loads line [] Closed
           [(lit "id", PStr (lit "c1"));
            (lit "choices",
             PList [PDict [(lit "index", PInt 0);
                           (lit "delta",
                            PDict [(lit "content", PStr (lit "Hel"))])];
                    PDict [(lit "index", PInt 1);
                           (lit "delta",
                            PDict [(lit "content", PStr (lit "no"))])]])]
           [(lit "index", PInt 0);
            (lit "delta", PDict [(lit "content", PStr (lit "Hel"))])]
           [PDict [(lit "index", PInt 1);
                   (lit "delta", PDict [(lit "content", PStr (lit "no"))])]]
           [(lit "content", PStr (lit "Hel"))]
           (PStr (lit "Hel"))); done.
Defined.

(** The conversation object is still the empty list after the stream has
    started. *)
Lemma stream_chat_keeps_objects_witness :
  (stream_chat Json.loads chat_url (chat_backend 200 hello_stream Closed)
     (lit "Hi") 1%positive (Some (lit "model-a")) empty_chat).1 !! 1%positive
  = Some (OList []).
Proof.
  apply (stream_chat_keeps_objects Json.loads chat_url
           (chat_backend 200 hello_stream Closed) (lit "Hi") 1%positive
           (Some (lit "model-a")) empty_chat 1%positive (OList [])).
  reflexivity.
Defined.

(** A [null] payload and a failing connection: the generator still
    returns. *)
Lemma stream_chat_returns_after_success_witness :
  outcome (stream_chat Json.loads chat_url (chat_backend 200 null_stream Dropped)
             (lit "Hi") 1%positive (Some (lit "model-a")) empty_chat).2
  = Ok ().
Proof.
  apply (stream_chat_returns_after_success Json.loads chat_url
           (chat_backend 200 null_stream Dropped) (lit "Hi") 1%positive
           (lit "model-a") empty_chat [] 200%Z null_stream Dropped);
    try reflexivity.
  intros s st body H. apply loads_raises in H.
  destruct H as [H|[H|H]]; discriminate.
Defined.

(** A second question in a conversation that holds one exchange. *)
Lemma respond_preserves_history_witness :
  let before := [Message (lit "user") (lit "Hi");
                 Message (lit "assistant") (lit "Hello")] in
  let u := Message (lit "user") (lit "Again") in
  let a := Message (lit "assistant") in
  yields (respond Json.loads chat_url (chat_backend 200 hello_stream Closed)
            (lit "Again") 1%positive (Some (lit "model-a"))
            chat_with_history).1.1
  = [Some (before ++ [u; a []]);
     Some (before ++ [u; a (lit "Hel")]);
     Some (before ++ [u; a (lit "Hello")])].
Proof.
  intros before u a.
  apply (respond_preserves_history Json.loads chat_url
           (chat_backend 200 hello_stream Closed) (lit "Again") 1%positive
           (lit "model-a") chat_with_history before [lit "Hel"; lit "lo"]);
    reflexivity.
Defined.

Lemma respond_final_conversation_witness :
  let net := chat_backend 200 hello_stream Closed in
  let before := [Message (lit "user") (lit "Hi");
                 Message (lit "assistant") (lit "Hello")] in
  let u := Message (lit "user") (lit "Again") in
  let a := Message (lit "assistant") in
  let '(t, h', r) := respond Json.loads chat_url net (lit "Again") 1%positive
                       (Some (lit "model-a")) chat_with_history in
  read_list h' 1%positive = Some (before ++ [u; a (lit "Hello")]) /\
  trace_effects t =
    [EvPost chat_url {| p_model := lit "model-a";
                        p_messages := before ++ [u; a []; u];
                        p_stream := true |}] /\
  r = Ok ().
Proof.
  intros net before u a.
  apply (respond_final_conversation Json.loads chat_url net (lit "Again")
           1%positive (lit "model-a") chat_with_history before
           [lit "Hel"; lit "lo"]); reflexivity.
Defined.

(** A number as the content of the second chunk. *)
Lemma respond_stops_at_non_text_witness :
  let net := chat_backend 200 number_stream Closed in
  let u := Message (lit "user") (lit "Hi") in
  let a := Message (lit "assistant") in
  let '(t, h', r) := respond Json.loads chat_url net (lit "Hi") 1%positive
                       (Some (lit "model-a")) empty_chat in
  r = Raise TypeError /\
  length (yields t) = 2%nat /\
  read_list h' 1%positive = Some [u; a (lit "Hel")].
Proof.
  intros net u a.
  apply (respond_stops_at_non_text Json.loads chat_url net (lit "Hi")
           1%positive (lit "model-a") empty_chat [] [lit "Hel"] (PInt 5)
           [PStr (lit "lo")]); done.
Defined.

(** "Hi", answered "Hello", and then "Bye". *)
Lemma respond_next_turn_witness :
  let net := chat_backend 200 hello_stream Closed in
  let a := Message (lit "assistant") in
  let u1 := Message (lit "user") (lit "Hi") in
  let u2 := Message (lit "user") (lit "Bye") in
  let h1 := (respond Json.loads chat_url net (lit "Hi") 1%positive
               (Some (lit "model-a")) empty_chat).1.2 in
  posts (respond Json.loads chat_url net (lit "Bye") 1%positive
           (Some (lit "model-b")) h1).1.1
  = [ {| p_model := lit "model-b";
         p_messages := [u1; a (lit "Hello"); u2; a []; u2];
         p_stream := true |} ].
Proof.
  intros net a u1 u2.
  apply (respond_next_turn Json.loads chat_url net (lit "Hi") (lit "Bye")
           1%positive (lit "model-a") (lit "model-b") empty_chat []
           [lit "Hel"; lit "lo"]); reflexivity.
Defined.

Lemma respond_without_model_witness :
  let net := chat_backend 200 hello_stream Closed in
  let u := Message (lit "user") (lit "Hi") in
  let a := Message (lit "assistant") in
  let '(t, h', r) := respond Json.loads chat_url net (lit "Hi") 1%positive
                       None empty_chat in
  yields t = [Some [u; a []]; Some [u; a select_model_warning]] /\
  trace_effects t = [] /\
  r = Ok () /\
  read_list h' 1%positive = Some [u; a select_model_warning].
Proof.
  intros net u a.
  apply (respond_without_model Json.loads chat_url net (lit "Hi") 1%positive
           None empty_chat []); reflexivity.
Defined.

Lemma respond_raises_on_http_error_witness :
  let net := chat_backend 404 [] Closed in
  let u := Message (lit "user") (lit "Hi") in
  let a := Message (lit "assistant") in
  let '(t, h', r) := respond Json.loads chat_url net (lit "Hi") 1%positive
                       (Some (lit "model-a")) empty_chat in
  r = Raise ResponseNotRead /\
  yields t = [Some [u; a []]] /\
  trace_effects t =
    [EvPost chat_url {| p_model := lit "model-a"; p_messages := [u; a []; u];
                        p_stream := true |}] /\
  read_list h' 1%positive = Some [u; a []].
Proof.
  intros net u a.
  apply (respond_raises_on_http_error Json.loads chat_url net (lit "Hi")
           1%positive (lit "model-a") empty_chat [] 404%Z [] Closed);
    reflexivity.
Defined.

Lemma respond_shows_request_failure_witness :
  let net := models_backend (Raise TransportError) in
  let u := Message (lit "user") (lit "Hi") in
  let a := Message (lit "assistant") in
  let '(t, h', r) := respond Json.loads chat_url net (lit "Hi") 1%positive
                       (Some (lit "model-a")) empty_chat in
  r = Ok () /\
  yields t = [Some [u; a []]; Some [u; a unexpected_error_message]] /\
  trace_effects t =
    [EvPost chat_url {| p_model := lit "model-a"; p_messages := [u; a []; u];
                        p_stream := true |};
     EvLogError
       (LogTextExn (lit "An unexpected error occurred during streaming: ")
          TransportError)
       (Some TransportError)] /\
  read_list h' 1%positive = Some [u; a unexpected_error_message].
Proof.
  intros net u a.
  apply (respond_shows_request_failure Json.loads chat_url net (lit "Hi")
           1%positive (lit "model-a") empty_chat [] TransportError); done.
Defined.

Lemma fetch_models_without_data_witness :
  fetch_models Json.loads models_url
    (models_backend (Ok (200%Z, jlit "{'object':'list'}")))
  = ([EvGet models_url], Ok ([], PNone)).
Proof.
  apply (fetch_models_without_data Json.loads models_url
           (models_backend (Ok (200%Z, jlit "{'object':'list'}")))
           200%Z (jlit "{'object':'list'}")
           [(lit "object", PStr (lit "list"))]); reflexivity.
Defined.

Lemma fetch_models_bad_entry_raises_witness :
  fetch_models Json.loads models_url
    (models_backend (Ok (200%Z, bad_entry_body)))
  = ([EvGet models_url], Raise TypeError)
  /\ fetch_models Json.loads models_url
       (models_backend (Ok (200%Z, mixed_entry_body)))
     = ([EvGet models_url], Raise TypeError).
Proof.
  split.
  - apply (fetch_models_bad_entry_raises Json.loads models_url
             (models_backend (Ok (200%Z, bad_entry_body))) 200%Z
             bad_entry_body
             [(lit "data",
               PList [PDict [(lit "id", PStr (lit "model-a"))]; PNone;
                      PDict [(lit "id", PStr (lit "model-b"))]])]
             [PDict [(lit "id", PStr (lit "model-a"))]; PNone;
              PDict [(lit "id", PStr (lit "model-b"))]]
             PNone); try done.
    by repeat constructor.
  - apply (fetch_models_bad_entry_raises Json.loads models_url
             (models_backend (Ok (200%Z, mixed_entry_body))) 200%Z
             mixed_entry_body
             [(lit "data",
               PList [PStr (lit "x"); PNone;
                      PDict [(lit "id", PStr (lit "model-b"))]])]
             [PStr (lit "x"); PNone;
              PDict [(lit "id", PStr (lit "model-b"))]]
             PNone); try done.
    by repeat constructor.
Defined.

Lemma refresh_dropdown_on_failure_witness :
  let net := models_backend (Raise TransportError) in
  discovery_fails Json.loads models_url net TransportError /\
  refresh_dropdown Json.loads models_url net =
    ([EvGet models_url; fetch_models_log models_url TransportError],
     Ok {| upd_choices := [PStr backend_unreachable]; upd_value := PNone;
           upd_interactive := false |}).
Proof.
  intros net.
  assert (discovery_fails Json.loads models_url net TransportError) as Hfail
    by (by apply fails_network).
  split; [done|].
  by apply (refresh_dropdown_on_failure Json.loads models_url net
              TransportError).
Defined.

(** The sample listing, and a listing with no model in it. *)
Lemma refresh_dropdown_listing_witness :
  refresh_dropdown Json.loads models_url
    (models_backend (Ok (200%Z, listing_body)))
  = ([EvGet models_url],
     Ok {| upd_choices := [PStr (lit "model-a"); PStr (lit "model-b")];
           upd_value := PStr (lit "model-a");
           upd_interactive := true |})
  /\ refresh_dropdown Json.loads models_url
       (models_backend (Ok (200%Z, empty_listing_body)))
     = ([EvGet models_url],
        Ok {| upd_choices := [PStr backend_unreachable]; upd_value := PNone;
              upd_interactive := false |}).
Proof.
  split.
  - apply (refresh_dropdown_listing Json.loads models_url
             (models_backend (Ok (200%Z, listing_body))) 200%Z listing_body
             [(lit "object", PStr (lit "list"));
              (lit "data",
               PList [PDict [(lit "id", PStr (lit "model-a"))];
                      PDict [(lit "object", PStr (lit "model"))];
                      PDict [(lit "id", PStr (lit "model-b"))]])]
             [[(lit "id", PStr (lit "model-a"))];
              [(lit "object", PStr (lit "model"))];
              [(lit "id", PStr (lit "model-b"))]]); reflexivity.
  - apply (refresh_dropdown_listing Json.loads models_url
             (models_backend (Ok (200%Z, empty_listing_body))) 200%Z
             empty_listing_body
             [(lit "object", PStr (lit "list")); (lit "data", PList [])]
             []); reflexivity.
Defined.
